(** * Sign-easy: field placement, field-tracking store and PDF compositor

    A shallow embedding of the document-signing front end:
    - the field registry ([FieldType], default geometry)        DraggableField.tsx
    - the placed-field record                                   DocumentFieldOverlay.tsx
    - the field-tracking store (a [Map<string, PlacedField[]>]) UseFieldTracking.tsx
    - the two drop-commit paths ([handleDrop], [handleDragEnd]) DocumentFieldOverlay.tsx,
                                                                DocumentPreview.tsx
    - the compositor and the output assembly                    PdfGenerator
    - the finalize handler ([handleDownloadDocument])           DocumentUpload

    Conventions.  JavaScript numbers that carry pixel or page-unit
    coordinates are modelled as exact rationals ([Q]); page numbers, byte
    sizes and millisecond timestamps are integers.  Strings are sequences of
    8-bit code units.  A React state cell is threaded explicitly: a handler
    takes the state of the render it closes over and returns the next state
    together with what it handed to its callbacks.  A call that throws
    returns [None] (or the message of the error that reaches the caller).
    The document engine is a parameter of the development: [load] for
    [PDFDocument.load], [embedSignature] for the conversion and embedding of
    a signature image, and [encodes] for the texts the standard font can
    encode, which are the texts [drawText] takes without throwing. *)

From Stdlib Require Import Ascii String QArith Qminmax Lqa.
From stdpp Require Import base gmap list strings pretty.

(** ** Field registry *)

(** [export type FieldType = "signature" | "name" | "email" | "date"] *)
Inductive FieldType : Set := signature | name | email | date.

#[global] Instance FieldType_eq_dec : EqDecision FieldType.
Proof. solve_decision. Defined.

(** The string a field type stands for inside a template literal. *)
Definition FieldType_str (t : FieldType) : string :=
  match t with
  | signature => "signature"
  | name => "name"
  | email => "email"
  | date => "date"
  end.

(** [fieldType === "signature" ? 120 : 100] and
    [fieldType === "signature" ? 40 : 30], as both drop paths write them. *)
Definition defaultWidth (t : FieldType) : Q :=
  if decide (t = signature) then 120%Q else 100%Q.

Definition defaultHeight (t : FieldType) : Q :=
  if decide (t = signature) then 40%Q else 30%Q.

(** ** Placed fields *)

(** [interface PlacedField].  The declared interface has no [value]
    member, but the finalize handler reads [field.value]; the record
    therefore carries the property as an optional one, [None] standing for
    an object on which the property is absent (it reads as [undefined]). *)
Module PlacedField.
Record t : Type := mk {
  id : string;
  type : FieldType;
  x : Q;
  y : Q;
  page : Z;
  width : Q;
  height : Q;
  value : option string
}.
End PlacedField.

(** ** Files *)

(** The attributes of a browser [File] the program reads. *)
Module File.
Record t : Type := mk {
  name : string;
  size : N;
  lastModified : Z;
  type : string
}.
End File.

(** ** Field-tracking store (hook [useFieldTracking]) *)

(** [`${file.name}-${file.size}-${file.lastModified}`] *)
Definition getDocumentKey (file : File.t) : string :=
  File.name file +:+ "-" +:+ pretty (File.size file)
    +:+ "-" +:+ pretty (File.lastModified file).

(** The state update [prev => { newMap = new Map(prev); newMap.set(key, fields) }]. *)
Definition updateDocumentFields (file : File.t) (fields : list PlacedField.t)
    (prev : gmap string (list PlacedField.t)) : gmap string (list PlacedField.t) :=
  let key := getDocumentKey file in
  <[key := fields]> prev.

(** [documentsWithFields.get(key) || []]; an array is truthy even when
    empty, so the right operand is taken exactly when the key is absent. *)
Definition getDocumentFields (documentsWithFields : gmap string (list PlacedField.t))
    (file : File.t) : list PlacedField.t :=
  let key := getDocumentKey file in
  match documentsWithFields !! key with
  | Some fields => fields
  | None => []
  end.

(** The state update [prev => { newMap = new Map(prev); newMap.delete(key) }]. *)
Definition removeDocumentFields (file : File.t)
    (prev : gmap string (list PlacedField.t)) : gmap string (list PlacedField.t) :=
  let key := getDocumentKey file in
  delete key prev.

Definition hasFields (documentsWithFields : gmap string (list PlacedField.t))
    (file : File.t) : bool :=
  let fields := getDocumentFields documentsWithFields file in
  bool_decide (0 < length fields)%nat.

Definition getFieldCount (documentsWithFields : gmap string (list PlacedField.t))
    (file : File.t) : nat :=
  let fields := getDocumentFields documentsWithFields file in
  length fields.


(** ** Placement: the native drop path (DocumentFieldOverlay) *)

(** [`placed-${fieldType}-${Date.now()}`]; [now] is the value [Date.now()]
    returned, in milliseconds. *)
Definition placedId (fieldType : FieldType) (now : Z) : string :=
  "placed-" +:+ FieldType_str fieldType +:+ "-" +:+ pretty now.

(** What [handleDrop] reads from its [React.DragEvent] and from the page:
    the pointer position, the bounding rectangle of the drop surface,
    whether one of the two [document.querySelector] calls found an element,
    and [event.dataTransfer.getData("fieldType")] ([None] for the empty
    string, which is falsy). *)
Module DropEvent.
Record t : Type := mk {
  clientX : Q;
  clientY : Q;
  rect_left : Q;
  rect_top : Q;
  activeElement : bool;
  fieldType : option FieldType
}.
End DropEvent.

(** [handleDrop]: the record handed to [onFieldPlaced], if any. *)
Definition handleDrop (currentPage : Z) (now : Z) (event : DropEvent.t)
    : option PlacedField.t :=
  let x := (DropEvent.clientX event - DropEvent.rect_left event)%Q in
  let y := (DropEvent.clientY event - DropEvent.rect_top event)%Q in
  if DropEvent.activeElement event then None
  else
    match DropEvent.fieldType event with
    | Some fieldType =>
        Some {| PlacedField.id := placedId fieldType now;
                PlacedField.type := fieldType;
                PlacedField.x := (x - 50)%Q;
                PlacedField.y := (y - 15)%Q;
                PlacedField.page := currentPage;
                PlacedField.width := defaultWidth fieldType;
                PlacedField.height := defaultHeight fieldType;
                PlacedField.value := None |}
    | None => None
    end.

(** ** Placement: the gesture-library path (DocumentPreview) *)

(** [active.data.current] of a draggable: [{ type: "field", fieldType }]. *)
Module DragData.
Record t : Type := mk {
  type : string;
  fieldType : FieldType
}.
End DragData.

(** A [DragEndEvent]: the dragged token ([active.id], [active.data.current]),
    the id of the droppable under the pointer ([over], [None] for [null])
    and the drag delta ([None] when the property is missing). *)
Module DragEndEvent.
Record t : Type := mk {
  active_id : string;
  active_data : option DragData.t;
  over : option string;
  delta : option (Q * Q)
}.
End DragEndEvent.

(** The state cells of the [DocumentPreview] component. *)
Module Preview.
Record t : Type := mk {
  placedFields : list PlacedField.t;
  currentPage : Z;
  activeField : option (string * FieldType)
}.
End Preview.

(** [useState(initialFields)], [useState(1)], [useState(null)]. *)
Definition Preview_init (initialFields : list PlacedField.t) : Preview.t :=
  {| Preview.placedFields := initialFields;
     Preview.currentPage := 1;
     Preview.activeField := None |}.

(** A handler of the preview returns the next state and the list it passed
    to [onFieldsChanged], if it called it. *)
Definition handleFieldPlaced (st : Preview.t) (field : PlacedField.t)
    : Preview.t * option (list PlacedField.t) :=
  let newFields := Preview.placedFields st ++ [field] in
  ({| Preview.placedFields := newFields;
      Preview.currentPage := Preview.currentPage st;
      Preview.activeField := Preview.activeField st |},
   Some newFields).

Definition handleFieldRemoved (st : Preview.t) (fieldId : string)
    : Preview.t * option (list PlacedField.t) :=
  let newFields :=
    filter (fun field => PlacedField.id field <> fieldId) (Preview.placedFields st) in
  ({| Preview.placedFields := newFields;
      Preview.currentPage := Preview.currentPage st;
      Preview.activeField := Preview.activeField st |},
   Some newFields).

Definition handleDragStart (st : Preview.t) (active_id : string)
    (active_data : option DragData.t) : Preview.t :=
  match active_data with
  | Some d =>
      if decide (DragData.type d = "field") then
        {| Preview.placedFields := Preview.placedFields st;
           Preview.currentPage := Preview.currentPage st;
           Preview.activeField := Some (active_id, DragData.fieldType d) |}
      else st
  | None => st
  end.

(** The record [handleDragEnd] builds once all its guards have passed. *)
Definition dragEndField (currentPage : Z) (now : Z) (fieldType : FieldType)
    (delta : Q * Q) : PlacedField.t :=
  let x := (fst delta + 100)%Q in
  let y := (snd delta + 100)%Q in
  {| PlacedField.id := placedId fieldType now;
     PlacedField.type := fieldType;
     PlacedField.x := Qmax 0 (x - 50);
     PlacedField.y := Qmax 0 (y - 15);
     PlacedField.page := currentPage;
     PlacedField.width := defaultWidth fieldType;
     PlacedField.height := defaultHeight fieldType;
     PlacedField.value := None |}.

(** The guards of [handleDragEnd]: the record it commits, if any.
    [dropZoneMounted] tells whether [document.getElementById] found the drop
    zone, so that [rect] is defined. *)
Definition dragEndCommit (currentPage : Z) (now : Z) (dropZoneMounted : bool)
    (event : DragEndEvent.t) : option PlacedField.t :=
  match DragEndEvent.over event, DragEndEvent.active_data event with
  | Some over_id, Some d =>
      if decide (over_id = "document-drop-zone") then
        if decide (DragData.type d = "field") then
          match DragEndEvent.delta event with
          | Some delta =>
              if dropZoneMounted
              then Some (dragEndField currentPage now (DragData.fieldType d) delta)
              else None
          | None => None
          end
        else None
      else None
  | _, _ => None
  end.

Definition handleDragEnd (st : Preview.t) (now : Z) (dropZoneMounted : bool)
    (event : DragEndEvent.t) : Preview.t * option (list PlacedField.t) :=
  let st1 := {| Preview.placedFields := Preview.placedFields st;
                Preview.currentPage := Preview.currentPage st;
                Preview.activeField := None |} in
  match dragEndCommit (Preview.currentPage st) now dropZoneMounted event with
  | Some newField => handleFieldPlaced st1 newField
  | None => (st1, None)
  end.

(** The overlay's [onFieldPlaced] wired to the preview's [handleFieldPlaced]. *)
Definition handleNativeDrop (st : Preview.t) (now : Z) (event : DropEvent.t)
    : Preview.t * option (list PlacedField.t) :=
  match handleDrop (Preview.currentPage st) now event with
  | Some newField => handleFieldPlaced st newField
  | None => (st, None)
  end.

(** ** The document engine (pdf-lib), as far as the program uses it *)

Inductive Font : Set := Helvetica | HelveticaBold.

(** [rgb(r, g, b)] *)
Inductive Color : Type := rgb (r g b : Q).

(** An image embedded with [embedPng]; it is identified by its PNG data URL. *)
Inductive PDFImage : Type := Png (dataUrl : string).

(** One drawing instruction received by a page. *)
Inductive DrawOp : Type :=
| drawText (text : string) (x y size : Q) (font : Font) (color : Color)
| drawImage (image : PDFImage) (x y width height : Q).

(** A page: what [getSize()] returns and the instructions drawn so far. *)
Module PDFPage.
Record t : Type := mk {
  width : Q;
  height : Q;
  content : list DrawOp
}.
End PDFPage.

(** A page with one more instruction at the end of its content. *)
Definition addInstruction (page : PDFPage.t) (op : DrawOp) : PDFPage.t :=
  {| PDFPage.width := PDFPage.width page;
     PDFPage.height := PDFPage.height page;
     PDFPage.content := PDFPage.content page ++ [op] |}.

(** Whether the engine takes an instruction.  [encodes text] tells whether
    the standard font can encode [text]; [page.drawText] throws when it
    cannot, before anything is added to the page.  An embedded image is
    always taken. *)
Definition accepts (encodes : string -> bool) (op : DrawOp) : bool :=
  match op with
  | drawText text _ _ _ _ _ => encodes text
  | drawImage _ _ _ _ _ => true
  end.

(** [page.drawText(..)] and [page.drawImage(..)]: the page with the
    instruction added in place, or [None] when the call throws. *)
Definition draw (encodes : string -> bool) (page : PDFPage.t) (op : DrawOp)
    : option PDFPage.t :=
  if accepts encodes op then Some (addInstruction page op) else None.

(** [interface SignatureData] *)
Module SignatureData.
Record t : Type := mk {
  name : string;
  email : string;
  date : string;
  signature : string
}.
End SignatureData.

(** [new Blob([bytes], { type })]; the bytes [save()] returns are identified
    with the sequence of pages they serialize. *)
Module Blob.
Record t : Type := mk {
  pages : list PDFPage.t;
  type : string
}.
End Blob.

(** ** A JavaScript [Map<number, V>]: keys in insertion order *)

Fixpoint Map_get {V : Type} (m : list (Z * V)) (key : Z) : option V :=
  match m with
  | [] => None
  | (k, v) :: rest => if decide (k = key) then Some v else Map_get rest key
  end.

Definition Map_has {V : Type} (m : list (Z * V)) (key : Z) : bool :=
  match Map_get m key with
  | Some _ => true
  | None => false
  end.

(** [set] keeps the position of a key that is present and appends a new one. *)
Fixpoint Map_set {V : Type} (m : list (Z * V)) (key : Z) (v : V) : list (Z * V) :=
  match m with
  | [] => [(key, v)]
  | (k, v0) :: rest =>
      if decide (k = key) then (k, v) :: rest else (k, v0) :: Map_set rest key v
  end.

(** ** Coordinate transform and compositor (PdfGenerator) *)

(** The body of [fieldPositions.forEach] that fills [fieldsByPage];
    [get(field.page)!.push(field)] grows the array stored under the key. *)
Definition groupField (fieldsByPage : list (Z * list PlacedField.t))
    (field : PlacedField.t) : list (Z * list PlacedField.t) :=
  let m :=
    if negb (Map_has fieldsByPage (PlacedField.page field))
    then Map_set fieldsByPage (PlacedField.page field) []
    else fieldsByPage in
  match Map_get m (PlacedField.page field) with
  | Some fields => Map_set m (PlacedField.page field) (fields ++ [field])
  | None => m
  end.

Definition groupByPage (fieldPositions : list PlacedField.t)
    : list (Z * list PlacedField.t) :=
  fold_left groupField fieldPositions [].

Section Compositor.

(** [encodes text]: whether the standard font (Helvetica, plain or bold)
    can encode [text]. *)
Variable encodes : string -> bool.

(** The body of [fields.forEach] on one page of the loaded document; [None]
    when the drawing call throws. *)
Definition drawField (signatureData : SignatureData.t)
    (signatureImage : option PDFImage) (page : PDFPage.t)
    (field : PlacedField.t) : option PDFPage.t :=
  let pageWidth := PDFPage.width page in
  let pageHeight := PDFPage.height page in
  let pdfX := (PlacedField.x field / 600 * pageWidth)%Q in
  let pdfY := (pageHeight - PlacedField.y field / 800 * pageHeight - 20)%Q in
  match PlacedField.type field with
  | signature =>
      match signatureImage with
      | Some image =>
          draw encodes page
            (drawImage image pdfX (pdfY - 30)
               (Qmin (PlacedField.width field * (3 # 2)) 120)
               (Qmin (PlacedField.height field * (3 # 2)) 40))
      | None =>
          draw encodes page
            (drawText "[Digital Signature]" pdfX pdfY 10 Helvetica (rgb 0 0 0))
      end
  | name =>
      draw encodes page
        (drawText (SignatureData.name signatureData) pdfX pdfY 12 Helvetica (rgb 0 0 0))
  | email =>
      draw encodes page
        (drawText (SignatureData.email signatureData) pdfX pdfY 10 Helvetica (rgb 0 0 0))
  | date =>
      draw encodes page
        (drawText (SignatureData.date signatureData) pdfX pdfY 10 Helvetica (rgb 0 0 0))
  end.

(** [fields.forEach(..)] on one page: the fields in order, up to the first
    call that throws. *)
Fixpoint drawFields (signatureData : SignatureData.t)
    (signatureImage : option PDFImage) (page : PDFPage.t)
    (fields : list PlacedField.t) : option PDFPage.t :=
  match fields with
  | [] => Some page
  | field :: rest =>
      match drawField signatureData signatureImage page field with
      | Some page' => drawFields signatureData signatureImage page' rest
      | None => None
      end
  end.

(** The body of [fieldsByPage.forEach]: one entry of the map applied to the
    pages of the document. *)
Definition applyPageFields (signatureData : SignatureData.t)
    (signatureImage : option PDFImage) (pages : list PDFPage.t)
    (entry : Z * list PlacedField.t) : option (list PDFPage.t) :=
  let '(pageNumber, fields) := entry in
  let pageIndex := (pageNumber - 1)%Z in
  if bool_decide (0 <= pageIndex)%Z && bool_decide (pageIndex < Z.of_nat (length pages))%Z
  then
    match pages !! Z.to_nat pageIndex with
    | Some page =>
        match drawFields signatureData signatureImage page fields with
        | Some page' => Some (<[Z.to_nat pageIndex := page']> pages)
        | None => None
        end
    | None => Some pages
    end
  else Some pages.

(** [fieldsByPage.forEach(..)]: the entries in insertion order, up to the
    first one that throws. *)
Fixpoint applyEntries (signatureData : SignatureData.t)
    (signatureImage : option PDFImage) (pages : list PDFPage.t)
    (entries : list (Z * list PlacedField.t)) : option (list PDFPage.t) :=
  match entries with
  | [] => Some pages
  | entry :: rest =>
      match applyPageFields signatureData signatureImage pages entry with
      | Some pages' => applyEntries signatureData signatureImage pages' rest
      | None => None
      end
  end.

(** Grouping followed by drawing, on the pages of the loaded document. *)
Definition applyFields (signatureData : SignatureData.t)
    (signatureImage : option PDFImage) (pages : list PDFPage.t)
    (fieldPositions : list PlacedField.t) : option (list PDFPage.t) :=
  applyEntries signatureData signatureImage pages (groupByPage fieldPositions).

End Compositor.

Section OutputAssembly.

(** The collaborators.  [load file] is [PDFDocument.load] on the bytes of
    [file]: the pages of the document, or [None] when it throws.
    [embedSignature] is the pipeline [convertImageToPng], [fetch],
    [embedPng] on a data URL: the embedded image, or [None] when a step
    rejects.  [localeNow] is [new Date().toLocaleString()].  [encodes]
    tells which texts the standard font can encode. *)
Variable load : File.t -> option (list PDFPage.t).
Variable embedSignature : string -> option PDFImage.
Variable localeNow : string.
Variable encodes : string -> bool.

(** [signatureImage] as the positioned path computes it: [null] unless the
    signature string is non-empty and the pipeline succeeds. *)
Definition processSignature (signatureData : SignatureData.t) : option PDFImage :=
  if decide (SignatureData.signature signatureData = "") then None
  else embedSignature (SignatureData.signature signatureData).

(** [generatePDFWithPositionedFields]; [None] when [PDFDocument.load] or a
    drawing call throws. *)
Definition generatePDFWithPositionedFields (originalFile : File.t)
    (signatureData : SignatureData.t) (fieldPositions : list PlacedField.t)
    : option Blob.t :=
  match load originalFile with
  | Some pages =>
      let signatureImage := processSignature signatureData in
      match applyFields encodes signatureData signatureImage pages fieldPositions with
      | Some pages' => Some {| Blob.pages := pages'; Blob.type := "application/pdf" |}
      | None => None
      end
  | None => None
  end.

(** The page [generateSignaturePagePDF] synthesizes; [None] when a drawing
    call outside the inner [try] block throws, or the one in its [catch]. *)
Definition signaturePage (signatureData : SignatureData.t) : option PDFPage.t :=
  let page := {| PDFPage.width := 612; PDFPage.height := 792; PDFPage.content := [] |} in
  let yStart := 650%Q in
  let lineHeight := 30%Q in
  page ← draw encodes page
           (drawText "Document Signature" 50 720 24 HelveticaBold (rgb 0 0 0));
  page ← draw encodes page
           (drawText "Signer Information:" 50 yStart 16 HelveticaBold (rgb 0 0 0));
  page ← draw encodes page
           (drawText ("Name: " +:+ SignatureData.name signatureData)
              50 (yStart - lineHeight) 12 Helvetica (rgb 0 0 0));
  page ← draw encodes page
           (drawText ("Email: " +:+ SignatureData.email signatureData)
              50 (yStart - lineHeight * 2) 12 Helvetica (rgb 0 0 0));
  page ← draw encodes page
           (drawText ("Date: " +:+ SignatureData.date signatureData)
              50 (yStart - lineHeight * 3) 12 Helvetica (rgb 0 0 0));
  page ←
    (if decide (SignatureData.signature signatureData = "") then Some page
     else
       let attempt :=
         signatureImage ← embedSignature (SignatureData.signature signatureData);
         labelled ← draw encodes page
                      (drawText "Signature:" 50 (yStart - lineHeight * 5) 12
                         HelveticaBold (rgb 0 0 0));
         draw encodes labelled
           (drawImage signatureImage 50 (yStart - lineHeight * 8) 200 80) in
       match attempt with
       | Some page' => Some page'
       | None =>
           draw encodes page
             (drawText "Signature: [Digital Signature Applied]" 50
                (yStart - lineHeight * 5) 12 Helvetica (rgb 0 0 0))
       end);
  draw encodes page
    (drawText ("Document signed on: " +:+ localeNow) 50 50 10 Helvetica
       (rgb (1 # 2) (1 # 2) (1 # 2))).

(** [generateSignaturePagePDF]: the summary page, inserted at index 0 of
    the original when that is a PDF that loads, alone otherwise; [None]
    when drawing the summary page throws. *)
Definition generateSignaturePagePDF (originalFile : File.t)
    (signatureData : SignatureData.t) : option Blob.t :=
  page ← signaturePage signatureData;
  if decide (File.type originalFile = "application/pdf") then
    match load originalFile with
    | Some originalPages =>
        Some {| Blob.pages := page :: originalPages; Blob.type := "application/pdf" |}
    | None =>
        Some {| Blob.pages := [page]; Blob.type := "application/pdf" |}
    end
  else Some {| Blob.pages := [page]; Blob.type := "application/pdf" |}.

(** [generateSignedPDF]: the blob, or the message of the error its
    [catch] block throws for any failure inside. *)
Definition generateSignedPDF (originalFile : File.t)
    (signatureData : SignatureData.t) (fieldPositions : list PlacedField.t)
    : Blob.t + string :=
  let attempt :=
    if bool_decide (File.type originalFile = "application/pdf")
       && bool_decide (0 < length fieldPositions)%nat
    then generatePDFWithPositionedFields originalFile signatureData fieldPositions
    else generateSignaturePagePDF originalFile signatureData in
  match attempt with
  | Some blob => inl blob
  | None => inr "Failed to generate signed PDF"
  end.

End OutputAssembly.

(** ** String helpers of the finalize handler *)

(** The code units below 256 that [String.prototype.trim] strips: TAB, LF,
    VT, FF, CR, SPACE and NO-BREAK SPACE. *)
Definition isWhiteSpace (c : ascii) : bool :=
  let n := nat_of_ascii c in
  ((9 <=? n)%nat && (n <=? 13)%nat) || (n =? 32)%nat || (n =? 160)%nat.

Fixpoint trimStart (s : string) : string :=
  match s with
  | EmptyString => EmptyString
  | String c rest => if isWhiteSpace c then trimStart rest else s
  end.

Fixpoint trimEnd (s : string) : string :=
  match s with
  | EmptyString => EmptyString
  | String c rest =>
      match trimEnd rest with
      | EmptyString => if isWhiteSpace c then EmptyString else String c EmptyString
      | rest' => String c rest'
      end
  end.

(** [s.trim()] *)
Definition trim (s : string) : string := trimEnd (trimStart s).

(** [s.split(sep)] for a one-character separator: never the empty array. *)
Fixpoint split (sep : ascii) (s : string) : list string :=
  match s with
  | EmptyString => [EmptyString]
  | String c rest =>
      if decide (c = sep) then EmptyString :: split sep rest
      else
        match split sep rest with
        | piece :: pieces => String c piece :: pieces
        | [] => [String c EmptyString]
        end
  end.

(** ** The finalize handler (DocumentUpload) *)

(** The state cells of [DocumentUpload] that the handlers below touch, with
    the state of the mounted preview dialog, if one is open. *)
Module App.
Record t : Type := mk {
  documentsWithFields : gmap string (list PlacedField.t);
  isGeneratingPDF : bool;
  preview : option (File.t * Preview.t)
}.
End App.

(** What a handler shows or hands to the user. *)
Inductive Effect : Type :=
| alert (message : string)
| downloadBlob (blob : Blob.t) (filename : string).

(** [!field.value || field.value.trim() === ""] *)
Definition isEmptyField (field : PlacedField.t) : bool :=
  match PlacedField.value field with
  | None => true
  | Some v => bool_decide (v = "") || bool_decide (trim v = "")
  end.

(** [fields.find((f) => f.type === t)?.value || ""] *)
Definition findValue (fields : list PlacedField.t) (t : FieldType) : string :=
  match List.find (fun f => bool_decide (PlacedField.type f = t)) fields with
  | Some f =>
      match PlacedField.value f with
      | Some v => v
      | None => ""
      end
  | None => ""
  end.

(** [file.name.split(".")[0]]; an index out of range reads [undefined]. *)
Definition originalName (file : File.t) : string :=
  match split "." (File.name file) !! 0%nat with
  | Some piece => piece
  | None => "undefined"
  end.

Section DocumentUpload.

Variable load : File.t -> option (list PDFPage.t).
Variable embedSignature : string -> option PDFImage.
Variable localeNow : string.
Variable encodes : string -> bool.

(** [handleDownloadDocument]: the next state and the effects, in order.
    On the generating path [isGeneratingPDF] is set and, in the [finally]
    block, reset. *)
Definition handleDownloadDocument (st : App.t) (file : File.t)
    : App.t * list Effect :=
  let fields := getDocumentFields (App.documentsWithFields st) file in
  if decide (length fields = 0%nat) then
    (st, [alert "Please add and fill some fields before downloading."])
  else
    let emptyFields := List.filter isEmptyField fields in
    if bool_decide (0 < length emptyFields)%nat then
      (st, [alert "Please fill in all fields before downloading."])
    else
      let st' := {| App.documentsWithFields := App.documentsWithFields st;
                    App.isGeneratingPDF := false;
                    App.preview := App.preview st |} in
      let signatureData :=
        {| SignatureData.name := findValue fields name;
           SignatureData.email := findValue fields email;
           SignatureData.date := findValue fields date;
           SignatureData.signature := findValue fields signature |} in
      match generateSignedPDF load embedSignature localeNow encodes file signatureData
              fields with
      | inl signedPdfBlob =>
          let filename := originalName file +:+ "_signed.pdf" in
          (st', [downloadBlob signedPdfBlob filename])
      | inr _ =>
          (st', [alert "Error generating signed document. Please try again."])
      end.

(** ** The session as a state machine *)

Inductive Event : Type :=
| OpenPreview (file : File.t)
| ClosePreview
| DragStart (active_id : string) (active_data : option DragData.t)
| DragEnd (now : Z) (dropZoneMounted : bool) (event : DragEndEvent.t)
| NativeDrop (now : Z) (event : DropEvent.t)
| RemoveField (fieldId : string)
| RemoveFile (file : File.t)
| Download (file : File.t).

(** [onFieldsChanged={(fields) => handleFieldsChanged(previewFile, fields)}]:
    the result of a preview handler committed to the session. *)
Definition commitPreview (st : App.t) (file : File.t)
    (r : Preview.t * option (list PlacedField.t)) : App.t :=
  let '(pst, changed) := r in
  {| App.documentsWithFields :=
       match changed with
       | Some fields => updateDocumentFields file fields (App.documentsWithFields st)
       | None => App.documentsWithFields st
       end;
     App.isGeneratingPDF := App.isGeneratingPDF st;
     App.preview := Some (file, pst) |}.

Definition step (st : App.t) (e : Event) : App.t :=
  match e with
  | OpenPreview file =>
      {| App.documentsWithFields := App.documentsWithFields st;
         App.isGeneratingPDF := App.isGeneratingPDF st;
         App.preview :=
           Some (file, Preview_init (getDocumentFields (App.documentsWithFields st) file)) |}
  | ClosePreview =>
      {| App.documentsWithFields := App.documentsWithFields st;
         App.isGeneratingPDF := App.isGeneratingPDF st;
         App.preview := None |}
  | RemoveFile file =>
      {| App.documentsWithFields := removeDocumentFields file (App.documentsWithFields st);
         App.isGeneratingPDF := App.isGeneratingPDF st;
         App.preview := App.preview st |}
  | Download file => fst (handleDownloadDocument st file)
  | DragStart active_id active_data =>
      match App.preview st with
      | Some (file, pst) =>
          commitPreview st file (handleDragStart pst active_id active_data, None)
      | None => st
      end
  | DragEnd now dropZoneMounted event =>
      match App.preview st with
      | Some (file, pst) =>
          commitPreview st file (handleDragEnd pst now dropZoneMounted event)
      | None => st
      end
  | NativeDrop now event =>
      match App.preview st with
      | Some (file, pst) => commitPreview st file (handleNativeDrop pst now event)
      | None => st
      end
  | RemoveField fieldId =>
      match App.preview st with
      | Some (file, pst) => commitPreview st file (handleFieldRemoved pst fieldId)
      | None => st
      end
  end.

(** [useState(new Map())], [useState(false)], [useState(null)]. *)
Definition App_init : App.t :=
  {| App.documentsWithFields := ∅;
     App.isGeneratingPDF := false;
     App.preview := None |}.

(** The states a session can be in: any run of events from the start. *)
Definition run (events : list Event) : App.t := fold_left step events App_init.

End DocumentUpload.

(** ** Reading a drawing instruction *)

(** Where an instruction anchors what it draws. *)
Definition DrawOp_x (op : DrawOp) : Q :=
  match op with
  | drawText _ x _ _ _ _ => x
  | drawImage _ x _ _ _ => x
  end.

Definition DrawOp_y (op : DrawOp) : Q :=
  match op with
  | drawText _ _ y _ _ _ => y
  | drawImage _ _ y _ _ => y
  end.

(** The text an instruction draws, if it draws text. *)
Definition DrawOp_text (op : DrawOp) : option string :=
  match op with
  | drawText text _ _ _ _ _ => Some text
  | drawImage _ _ _ _ _ => None
  end.

(** The one instruction [drawField] issues for a field on a page of the
    given size: what a blank page holds after [drawField], on an engine that
    takes every text. *)
Definition fieldOp (signatureData : SignatureData.t)
    (signatureImage : option PDFImage) (pageWidth pageHeight : Q)
    (field : PlacedField.t) : DrawOp :=
  let blank := {| PDFPage.width := pageWidth; PDFPage.height := pageHeight;
                  PDFPage.content := [] |} in
  match drawField (fun _ => true) signatureData signatureImage blank field with
  | Some {| PDFPage.content := op :: _ |} => op
  | _ => drawText "" 0 0 0 Helvetica (rgb 0 0 0)
  end.

(** A page once the instructions of some fields were added to it. *)
Definition withFields (signatureData : SignatureData.t)
    (signatureImage : option PDFImage) (page : PDFPage.t)
    (fields : list PlacedField.t) : PDFPage.t :=
  {| PDFPage.width := PDFPage.width page;
     PDFPage.height := PDFPage.height page;
     PDFPage.content :=
       PDFPage.content page
       ++ map (fieldOp signatureData signatureImage
                 (PDFPage.width page) (PDFPage.height page)) fields |}.

(** The pages once every page received the instructions of the fields
    placed on it: the output of the compositor when no call throws. *)
Definition composite (signatureData : SignatureData.t)
    (signatureImage : option PDFImage) (pages : list PDFPage.t)
    (fieldPositions : list PlacedField.t) : list PDFPage.t :=
  imap (fun i page =>
          withFields signatureData signatureImage page
            (filter (fun f => PlacedField.page f = Z.of_nat i + 1)%Z fieldPositions))
    pages.

(** Whether the engine takes the instruction of a field. *)
Definition fieldAccepted (encodes : string -> bool) (signatureData : SignatureData.t)
    (signatureImage : option PDFImage) (field : PlacedField.t) : bool :=
  accepts encodes (fieldOp signatureData signatureImage 0 0 field).

(** The texts the summary page may draw. *)
Definition summaryTexts (localeNow : string) (signatureData : SignatureData.t)
    : list string :=
  [ "Document Signature"; "Signer Information:";
    "Name: " +:+ SignatureData.name signatureData;
    "Email: " +:+ SignatureData.email signatureData;
    "Date: " +:+ SignatureData.date signatureData;
    "Signature: [Digital Signature Applied]";
    "Document signed on: " +:+ localeNow ]%string.

(** [signatureData] as [handleDownloadDocument] builds it from the fields. *)
Definition signatureDataOf (fields : list PlacedField.t) : SignatureData.t :=
  {| SignatureData.name := findValue fields name;
     SignatureData.email := findValue fields email;
     SignatureData.date := findValue fields date;
     SignatureData.signature := findValue fields signature |}.

(** ** A drop commit, through either path *)

Inductive Commit : Type :=
| NativeCommit (currentPage now : Z) (event : DropEvent.t)
| GestureCommit (currentPage now : Z) (dropZoneMounted : bool) (event : DragEndEvent.t).

(** The record the commit emits, if its guards pass. *)
Definition commitField (c : Commit) : option PlacedField.t :=
  match c with
  | NativeCommit currentPage now event => handleDrop currentPage now event
  | GestureCommit currentPage now dropZoneMounted event =>
      dragEndCommit currentPage now dropZoneMounted event
  end.

(** The value [Date.now()] returned during the commit. *)
Definition commitTime (c : Commit) : Z :=
  match c with
  | NativeCommit _ now _ => now
  | GestureCommit _ now _ _ => now
  end.


(** ** Sample inputs *)

Definition contract_pdf : File.t :=
  {| File.name := "contract.pdf"; File.size := 48213;
     File.lastModified := 1730000000000; File.type := "application/pdf" |}.

Definition notes_txt : File.t :=
  {| File.name := "notes.txt"; File.size := 120;
     File.lastModified := 1730000000500; File.type := "text/plain" |}.

(** A native drop of a [name] token 10 px right of and 5 px below the
    origin of a drop surface whose rectangle starts at (100, 200). *)
Definition drop_near_origin : DropEvent.t :=
  {| DropEvent.clientX := 110; DropEvent.clientY := 205;
     DropEvent.rect_left := 100; DropEvent.rect_top := 200;
     DropEvent.activeElement := false; DropEvent.fieldType := Some name |}.

(** A native drop of a [signature] token at surface position (200, 200). *)
Definition drop_signature : DropEvent.t :=
  {| DropEvent.clientX := 300; DropEvent.clientY := 400;
     DropEvent.rect_left := 100; DropEvent.rect_top := 200;
     DropEvent.activeElement := false; DropEvent.fieldType := Some signature |}.

(** A gesture of the [name] token of the toolbox ending over the drop zone. *)
Definition dragEnd_name (dx dy : Q) : DragEndEvent.t :=
  {| DragEndEvent.active_id := "field-name";
     DragEndEvent.active_data :=
       Some {| DragData.type := "field"; DragData.fieldType := name |};
     DragEndEvent.over := Some "document-drop-zone";
     DragEndEvent.delta := Some (dx, dy) |}.

Definition letter_page : PDFPage.t :=
  {| PDFPage.width := 612; PDFPage.height := 792; PDFPage.content := [] |}.

Definition sample_load (file : File.t) : option (list PDFPage.t) :=
  if decide (File.type file = "application/pdf")
  then Some [letter_page; letter_page; letter_page]
  else None.

Definition sample_embed (dataUrl : string) : option PDFImage := Some (Png dataUrl).

Definition sample_locale : string := "11/2/2026, 9:30:00 AM".

(** An engine whose font encodes the printable ASCII characters only. *)
Definition sample_encodes (text : string) : bool :=
  forallb (fun c => (32 <=? nat_of_ascii c)%nat && (nat_of_ascii c <=? 126)%nat)
    (list_ascii_of_string text).

Definition filled_name : PlacedField.t :=
  {| PlacedField.id := placedId name 1730000001000;
     PlacedField.type := name;
     PlacedField.x := 100; PlacedField.y := 100; PlacedField.page := 1;
     PlacedField.width := 100; PlacedField.height := 30;
     PlacedField.value := Some "Ada Lovelace" |}.

Definition app_with (file : File.t) (fields : list PlacedField.t) : App.t :=
  {| App.documentsWithFields := updateDocumentFields file fields ∅;
     App.isGeneratingPDF := false;
     App.preview := None |}.

Definition ada : SignatureData.t :=
  {| SignatureData.name := "Ada Lovelace"; SignatureData.email := "ada@example.org";
     SignatureData.date := "2026-11-02"; SignatureData.signature := "" |}.

(** The same signer with a drawn signature. *)
Definition ada_signed : SignatureData.t :=
  {| SignatureData.name := "Ada Lovelace"; SignatureData.email := "ada@example.org";
     SignatureData.date := "2026-11-02";
     SignatureData.signature := "data:image/png;base64,iVBORw0KGgo=" |}.

(** A [signature] field placed on page 2. *)
Definition signature_box : PlacedField.t :=
  {| PlacedField.id := placedId signature 1730000006000;
     PlacedField.type := signature;
     PlacedField.x := 200; PlacedField.y := 400; PlacedField.page := 2;
     PlacedField.width := 120; PlacedField.height := 40;
     PlacedField.value := Some "data:image/png;base64,iVBORw0KGgo=" |}.

(** A [date] field placed on page 5. *)
Definition date_on_page5 : PlacedField.t :=
  {| PlacedField.id := placedId date 1730000002000;
     PlacedField.type := date;
     PlacedField.x := 40; PlacedField.y := 700; PlacedField.page := 5;
     PlacedField.width := 100; PlacedField.height := 30;
     PlacedField.value := Some "2026-11-02" |}.

(** An [email] field whose value is white space only. *)
Definition blank_email : PlacedField.t :=
  {| PlacedField.id := placedId email 1730000003000;
     PlacedField.type := email;
     PlacedField.x := 100; PlacedField.y := 160; PlacedField.page := 1;
     PlacedField.width := 100; PlacedField.height := 30;
     PlacedField.value := Some "   " |}.

(** ** The invariant of the placement flow *)

Definition noValue (f : PlacedField.t) : Prop := PlacedField.value f = None.

(** No stored field and no field of the open preview carries a value. *)
Definition Unfilled (st : App.t) : Prop :=
  map_Forall (fun _ fields => Forall noValue fields) (App.documentsWithFields st)
  /\ match App.preview st with
     | Some (_, pst) => Forall noValue (Preview.placedFields pst)
     | None => True
     end.

(** ** The overlay: drag indicator and placed boxes (DocumentFieldOverlay) *)

(** The [style] of an absolutely positioned rectangle of the overlay. *)
Module Box.
Record t : Type := mk {
  left : Q;
  top : Q;
  width : Q;
  height : Q
}.
End Box.

(** [handleDragOver]: the next value of the state cell [dragOverPosition]. *)
Definition handleDragOver (event : DropEvent.t) : option (Q * Q) :=
  Some ((DropEvent.clientX event - DropEvent.rect_left event)%Q,
        (DropEvent.clientY event - DropEvent.rect_top event)%Q).

(** [handleDragLeave]: the next value of [dragOverPosition]. *)
Definition handleDragLeave : option (Q * Q) := None.

(** The dashed rectangle rendered when [dragOverPosition && isOver]. *)
Definition dragIndicator (dragOverPosition : option (Q * Q)) (isOver : bool)
    : option Box.t :=
  match dragOverPosition with
  | Some (x, y) =>
      if isOver
      then Some {| Box.left := (x - 50)%Q; Box.top := (y - 15)%Q;
                   Box.width := 100; Box.height := 30 |}
      else None
  | None => None
  end.

(** [placedFields.filter((field) => field.page === currentPage)] *)
Definition currentPageFields (placedFields : list PlacedField.t) (currentPage : Z)
    : list PlacedField.t :=
  filter (fun field => PlacedField.page field = currentPage) placedFields.

(** The rectangle rendered for a placed field. *)
Definition fieldBox (field : PlacedField.t) : Box.t :=
  {| Box.left := PlacedField.x field; Box.top := PlacedField.y field;
     Box.width := PlacedField.width field; Box.height := PlacedField.height field |}.

(** ** The list of uploaded files (DocumentUpload) *)

(** [l.filter((_, i) => keep(i))], counting positions from [i]. *)
Fixpoint filter_index {A : Type} (keep : nat -> bool) (i : nat) (l : list A) : list A :=
  match l with
  | [] => []
  | a :: rest =>
      if keep i then a :: filter_index keep (S i) rest
      else filter_index keep (S i) rest
  end.

(** [onDrop]: the next value of [uploadedFiles]. *)
Definition onDrop (uploadedFiles acceptedFiles : list File.t) : list File.t :=
  uploadedFiles ++ acceptedFiles.

(** [removeFile(index)]: the next [uploadedFiles] and field store.  When
    [uploadedFiles[index]] is [undefined], [getDocumentKey] throws on reading
    its [name] before any state is set: [None]. *)
Definition removeFile (uploadedFiles : list File.t)
    (documentsWithFields : gmap string (list PlacedField.t)) (index : nat)
    : option (list File.t * gmap string (list PlacedField.t)) :=
  match uploadedFiles !! index with
  | Some fileToRemove =>
      let newFiles :=
        filter_index (fun i => negb (Nat.eqb i index)) 0 uploadedFiles in
      Some (newFiles, removeDocumentFields fileToRemove documentsWithFields)
  | None => None
  end.

(** ** The first version of the generator (PdfGenerator, without fields) *)

Section FirstGenerator.

Variable load : File.t -> option (list PDFPage.t).
Variable embedSignature : string -> option PDFImage.
Variable localeNow : string.
Variable encodes : string -> bool.

(** The first [generateSignedPDF (originalFile, signatureData)]: the blob,
    or the message of the error its [catch] block throws. *)
Definition generateSignedPDF_v1 (originalFile : File.t)
    (signatureData : SignatureData.t) : Blob.t + string :=
  let attempt :=
    let page := {| PDFPage.width := 612; PDFPage.height := 792; PDFPage.content := [] |} in
    page ← draw encodes page
             (drawText "Document Signature" 50 720 24 HelveticaBold (rgb 0 0 0));
    let yStart := 650%Q in
    let lineHeight := 30%Q in
    page ← draw encodes page
             (drawText "Signer Information:" 50 yStart 16 HelveticaBold (rgb 0 0 0));
    page ← draw encodes page
             (drawText ("Name: " +:+ SignatureData.name signatureData)
                50 (yStart - lineHeight) 12 Helvetica (rgb 0 0 0));
    page ← draw encodes page
             (drawText ("Email: " +:+ SignatureData.email signatureData)
                50 (yStart - lineHeight * 2) 12 Helvetica (rgb 0 0 0));
    page ← draw encodes page
             (drawText ("Date: " +:+ SignatureData.date signatureData)
                50 (yStart - lineHeight * 3) 12 Helvetica (rgb 0 0 0));
    page ←
      (if decide (SignatureData.signature signatureData = "") then Some page
       else
         let attempt :=
           signatureImage ← embedSignature (SignatureData.signature signatureData);
           labelled ← draw encodes page
                        (drawText "Signature:" 50 (yStart - lineHeight * 5) 12
                           HelveticaBold (rgb 0 0 0));
           draw encodes labelled
             (drawImage signatureImage 50 (yStart - lineHeight * 8) 200 80) in
         match attempt with
         | Some page' => Some page'
         | None =>
             draw encodes page
               (drawText "Signature: [Digital Signature Applied]" 50
                  (yStart - lineHeight * 5) 12 Helvetica (rgb 0 0 0))
         end);
    page ← draw encodes page
             (drawText ("Document signed on: " +:+ localeNow) 50 50 10 Helvetica
                (rgb (1 # 2) (1 # 2) (1 # 2)));
    if decide (File.type originalFile = "application/pdf") then
      match load originalFile with
      | Some originalPages =>
          Some {| Blob.pages := page :: originalPages; Blob.type := "application/pdf" |}
      | None =>
          Some {| Blob.pages := [page]; Blob.type := "application/pdf" |}
      end
    else Some {| Blob.pages := [page]; Blob.type := "application/pdf" |} in
  match attempt with
  | Some blob => inl blob
  | None => inr "Failed to generate signed PDF"
  end.

End FirstGenerator.

(** ** Counting and more invariants *)

(** The number of drawing instructions a document holds. *)
Definition instructionCount (pages : list PDFPage.t) : nat :=
  sum_list (map (fun page => length (PDFPage.content page)) pages).

(** What every record of a session looks like: first page, the default
    geometry of its kind, an id built from its kind and a timestamp. *)
Definition Placed (f : PlacedField.t) : Prop :=
  PlacedField.page f = 1%Z
  /\ PlacedField.width f = defaultWidth (PlacedField.type f)
  /\ PlacedField.height f = defaultHeight (PlacedField.type f)
  /\ exists now, PlacedField.id f = placedId (PlacedField.type f) now.

(** Every stored field and every field of the open preview is [Placed],
    the preview shows page 1, and no generation is in progress. *)
Definition Session (st : App.t) : Prop :=
  map_Forall (fun _ fields => Forall Placed fields) (App.documentsWithFields st)
  /\ App.isGeneratingPDF st = false
  /\ match App.preview st with
     | Some (_, pst) =>
         Forall Placed (Preview.placedFields pst) /\ Preview.currentPage pst = 1%Z
     | None => True
     end.

(** Two uploads of one file, with another file between them. *)
Definition uploads : list File.t :=
  [contract_pdf; notes_txt; contract_pdf].

(** A [name] field with another value than [filled_name], on the same page. *)
Definition second_name : PlacedField.t :=
  {| PlacedField.id := placedId name 1730000004000;
     PlacedField.type := name;
     PlacedField.x := 300; PlacedField.y := 400; PlacedField.page := 1;
     PlacedField.width := 100; PlacedField.height := 30;
     PlacedField.value := Some "Grace Hopper" |}.

(** A PDF that the engine cannot load. *)
Definition broken_pdf : File.t :=
  {| File.name := "broken.pdf"; File.size := 17;
     File.lastModified := 1730000000900; File.type := "application/pdf" |}.

Definition failing_load (file : File.t) : option (list PDFPage.t) := None.

(** A [name] field whose value holds the control character U+0001, which
    the font of [sample_encodes] does not encode. *)
Definition control_name : PlacedField.t :=
  {| PlacedField.id := placedId name 1730000007000;
     PlacedField.type := name;
     PlacedField.x := 100; PlacedField.y := 100; PlacedField.page := 1;
     PlacedField.width := 100; PlacedField.height := 30;
     PlacedField.value := Some ("Ada" +:+ String (ascii_of_nat 1) "") |}.

(** A code unit other than the dash that joins the parts of a document key. *)
Definition noDash (c : ascii) : Prop := c <> "-"%char.

(** [contract_pdf] with another MIME type. *)
Definition contract_retyped : File.t :=
  {| File.name := "contract.pdf"; File.size := 48213;
     File.lastModified := 1730000000000; File.type := "text/plain" |}.

(** A [signature] field as a drop builds it. *)
Definition placed_signature : PlacedField.t :=
  {| PlacedField.id := placedId signature 1730000005000;
     PlacedField.type := signature;
     PlacedField.x := 150; PlacedField.y := 185; PlacedField.page := 1;
     PlacedField.width := 120; PlacedField.height := 40;
     PlacedField.value := None |}.

(** * Properties *)

(** ** The definitions on small inputs *)

Example trim_inner_spaces : trim "  Ada  Lovelace   " = "Ada  Lovelace"%string.
Proof. reflexivity. Qed.

Example trim_blank : trim "   " = ""%string.
Proof. reflexivity. Qed.

Example split_two_dots :
  split "." "report.v2.pdf" = ["report"; "v2"; "pdf"]%string.
Proof. reflexivity. Qed.

Example originalName_two_dots :
  originalName {| File.name := "report.v2.pdf"; File.size := 1;
                  File.lastModified := 0; File.type := "application/pdf" |}
  = "report"%string.
Proof. reflexivity. Qed.

Example placedId_name : placedId name 1730000001000 = "placed-name-1730000001000"%string.
Proof. reflexivity. Qed.

Example getDocumentKey_contract :
  getDocumentKey contract_pdf = "contract.pdf-48213-1730000000000"%string.
Proof. reflexivity. Qed.

Example groupByPage_order :
  groupByPage [date_on_page5; filled_name; blank_email]
  = [(5%Z, [date_on_page5]); (1%Z, [filled_name; blank_email])].
Proof. reflexivity. Qed.

Example dragEnd_clamps :
  dragEndCommit 1 1730000000000 true (dragEnd_name (-200) (-90))
  = Some {| PlacedField.id := "placed-name-1730000000000";
            PlacedField.type := name;
            PlacedField.x := 0; PlacedField.y := 0; PlacedField.page := 1;
            PlacedField.width := 100; PlacedField.height := 30;
            PlacedField.value := None |}.
Proof. reflexivity. Qed.

(** ** Field-tracking store *)

Lemma getDocumentFields_update docs file file' fields :
  getDocumentKey file' = getDocumentKey file ->
  getDocumentFields (updateDocumentFields file fields docs) file' = fields.
Proof.
  intros Hkey. unfold getDocumentFields, updateDocumentFields.
  rewrite Hkey. by rewrite lookup_insert_eq.
Qed.

Lemma getDocumentFields_update_ne docs file file' fields :
  getDocumentKey file' <> getDocumentKey file ->
  getDocumentFields (updateDocumentFields file fields docs) file'
  = getDocumentFields docs file'.
Proof.
  intros Hkey. unfold getDocumentFields, updateDocumentFields.
  by rewrite lookup_insert_ne.
Qed.

Lemma getDocumentFields_absent docs file :
  docs !! getDocumentKey file = None -> getDocumentFields docs file = [].
Proof. intros Hnone. unfold getDocumentFields. by rewrite Hnone. Qed.

(** C8.  Writing a field list for a document and reading the list of a
    document with the same identity gives back that very list, whatever was
    stored before: the write replaces the earlier entry.  Reading an
    identity that has no entry, or whose entry was removed, gives the empty
    list. *)
Theorem setFields_getFields
    (docs : gmap string (list PlacedField.t)) (file file' : File.t)
    (old fields : list PlacedField.t) :
  getDocumentKey file' = getDocumentKey file ->
  getDocumentFields (updateDocumentFields file fields docs) file' = fields
  /\ updateDocumentFields file fields (updateDocumentFields file' old docs)
     = updateDocumentFields file fields docs
  /\ getDocumentFields (removeDocumentFields file docs) file' = []
  /\ (docs !! getDocumentKey file = None -> getDocumentFields docs file' = []).
Proof.
  intros Hkey. repeat split.
  - by apply getDocumentFields_update.
  - unfold updateDocumentFields. rewrite Hkey. apply insert_insert_eq.
  - apply getDocumentFields_absent. unfold removeDocumentFields.
    rewrite Hkey. apply lookup_delete_eq.
  - intros Hnone. apply getDocumentFields_absent. by rewrite Hkey.
Qed.

(** ** Drop commits *)

Lemma handleDrop_Some currentPage now event f :
  handleDrop currentPage now event = Some f ->
  exists fieldType,
    DropEvent.activeElement event = false
    /\ DropEvent.fieldType event = Some fieldType
    /\ f = {| PlacedField.id := placedId fieldType now;
              PlacedField.type := fieldType;
              PlacedField.x :=
                (DropEvent.clientX event - DropEvent.rect_left event - 50)%Q;
              PlacedField.y :=
                (DropEvent.clientY event - DropEvent.rect_top event - 15)%Q;
              PlacedField.page := currentPage;
              PlacedField.width := defaultWidth fieldType;
              PlacedField.height := defaultHeight fieldType;
              PlacedField.value := None |}.
Proof.
  unfold handleDrop. intros H.
  destruct (DropEvent.activeElement event); [discriminate |].
  destruct (DropEvent.fieldType event) as [fieldType |]; [| discriminate].
  exists fieldType. by inversion H.
Qed.

Lemma dragEndCommit_Some currentPage now dropZoneMounted event f :
  dragEndCommit currentPage now dropZoneMounted event = Some f ->
  exists d delta,
    DragEndEvent.active_data event = Some d
    /\ DragEndEvent.delta event = Some delta
    /\ f = dragEndField currentPage now (DragData.fieldType d) delta.
Proof.
  unfold dragEndCommit. intros H.
  destruct (DragEndEvent.over event) as [over_id |]; [| discriminate].
  destruct (DragEndEvent.active_data event) as [d |]; [| discriminate].
  repeat case_decide; try discriminate.
  destruct (DragEndEvent.delta event) as [delta |]; [| discriminate].
  destruct dropZoneMounted; [| discriminate].
  exists d, delta. by inversion H.
Qed.

(** Every emitted record carries the id, the page and the default geometry
    of its kind, and no value. *)
Lemma commitField_shape c f :
  commitField c = Some f ->
  PlacedField.id f = placedId (PlacedField.type f) (commitTime c)
  /\ PlacedField.width f = defaultWidth (PlacedField.type f)
  /\ PlacedField.height f = defaultHeight (PlacedField.type f)
  /\ PlacedField.value f = None.
Proof.
  destruct c as [currentPage now event | currentPage now mounted event]; simpl; intros H.
  - apply handleDrop_Some in H as (k & _ & _ & ->). done.
  - apply dragEndCommit_Some in H as (d & delta & _ & _ & ->). done.
Qed.

(** The gesture path clamps both axes. *)
Lemma dragEndCommit_clamped currentPage now dropZoneMounted event f :
  dragEndCommit currentPage now dropZoneMounted event = Some f ->
  (0 <= PlacedField.x f)%Q /\ (0 <= PlacedField.y f)%Q.
Proof.
  intros H. apply dragEndCommit_Some in H as (d & delta & _ & _ & ->).
  simpl. split; apply Q.le_max_l.
Qed.

(** C2.  The native drop path does not clamp: a [name] token dropped 10 px
    right of and 5 px below the origin of the drop surface is committed at
    (-40, -10). *)
Theorem handleDrop_negative_coordinates :
  exists f,
    commitField (NativeCommit 1 1730000000000 drop_near_origin) = Some f
    /\ (PlacedField.x f == -40)%Q /\ (PlacedField.y f == -10)%Q
    /\ ~ (0 <= PlacedField.x f)%Q /\ ~ (0 <= PlacedField.y f)%Q.
Proof.
  eexists. split; [reflexivity |]. simpl.
  repeat split; try reflexivity; intros H; vm_compute in H; by apply H.
Qed.

(** ** The page map *)

Lemma Map_get_notin {V} (m : list (Z * V)) key :
  key ∉ m.*1 -> Map_get m key = None.
Proof.
  induction m as [| [k v] rest IH]; simpl; [done |].
  rewrite not_elem_of_cons. intros [Hne Hrest].
  case_decide; [congruence | by apply IH].
Qed.

Lemma Map_get_set {V} (m : list (Z * V)) key key' v :
  Map_get (Map_set m key v) key'
  = if decide (key = key') then Some v else Map_get m key'.
Proof.
  induction m as [| [k v0] rest IH]; simpl.
  - by repeat case_decide.
  - destruct (decide (k = key)) as [-> | Hne]; simpl.
    + by repeat case_decide.
    + rewrite IH. repeat case_decide; congruence.
Qed.

Lemma Map_set_keys {V} (m : list (Z * V)) key v :
  (Map_set m key v).*1 = if decide (key ∈ m.*1) then m.*1 else m.*1 ++ [key].
Proof.
  induction m as [| [k v0] rest IH]; csimpl.
  - destruct (decide (key ∈ [])) as [H | H]; [by apply elem_of_nil in H | done].
  - destruct (decide (k = key)) as [-> | Hne]; csimpl.
    + rewrite decide_True; [done | left].
    + rewrite IH. destruct (decide (key ∈ rest.*1)) as [Hin | Hnin].
      * rewrite decide_True; [done | by right].
      * rewrite decide_False; [done |]. rewrite not_elem_of_cons. naive_solver.
Qed.

Lemma Map_set_NoDup {V} (m : list (Z * V)) key v :
  NoDup m.*1 -> NoDup (Map_set m key v).*1.
Proof.
  intros Hnd. rewrite Map_set_keys. case_decide; [done |].
  apply NoDup_app. repeat split; [done | | apply NoDup_singleton].
  intros k Hk Hk'. apply list_elem_of_singleton in Hk'. by subst.
Qed.

(** ** Grouping *)

Lemma groupField_get m f n :
  Map_get (groupField m f) n
  = if decide (PlacedField.page f = n)
    then Some (default [] (Map_get m n) ++ [f])
    else Map_get m n.
Proof.
  unfold groupField, Map_has.
  destruct (Map_get m (PlacedField.page f)) as [arr |] eqn:Hget; simpl.
  - rewrite Hget, Map_get_set. destruct (decide _) as [<- | Hne]; [by rewrite Hget | done].
  - rewrite Map_get_set, decide_True by done.
    rewrite !Map_get_set. destruct (decide _) as [<- | Hne]; [by rewrite Hget | done].
Qed.

Lemma groupField_NoDup m f : NoDup m.*1 -> NoDup (groupField m f).*1.
Proof.
  intros Hnd. unfold groupField.
  destruct (negb _); destruct (Map_get _ _); auto using @Map_set_NoDup.
Qed.

Lemma fold_groupField_NoDup fields m :
  NoDup m.*1 -> NoDup (fold_left groupField fields m).*1.
Proof.
  revert m. induction fields as [| f fields IH]; simpl; [done |].
  intros m Hnd. by apply IH, groupField_NoDup.
Qed.

Lemma fold_groupField_get fields m n :
  let here := filter (fun f => PlacedField.page f = n) fields in
  Map_get (fold_left groupField fields m) n
  = match here with
    | [] => Map_get m n
    | _ :: _ => Some (default [] (Map_get m n) ++ here)
    end.
Proof.
  revert m. induction fields as [| f fields IH]; simpl; [done |].
  intros m. rewrite IH, groupField_get, filter_cons.
  destruct (decide (PlacedField.page f = n)) as [Hp | Hp]; simpl.
  - destruct (filter _ fields); simpl; [done | by rewrite <- app_assoc].
  - done.
Qed.

(** ** Drawing *)

Lemma fieldOp_position signatureData signatureImage pageWidth pageHeight field :
  let outputX := (PlacedField.x field / 600 * pageWidth)%Q in
  let outputY := (pageHeight - PlacedField.y field / 800 * pageHeight - 20)%Q in
  fieldOp signatureData signatureImage pageWidth pageHeight field
  = match PlacedField.type field, signatureImage with
    | signature, Some image =>
        drawImage image outputX (outputY - 30)
          (Qmin (PlacedField.width field * (3 # 2)) 120)
          (Qmin (PlacedField.height field * (3 # 2)) 40)
    | signature, None =>
        drawText "[Digital Signature]" outputX outputY 10 Helvetica (rgb 0 0 0)
    | name, _ =>
        drawText (SignatureData.name signatureData) outputX outputY 12 Helvetica (rgb 0 0 0)
    | email, _ =>
        drawText (SignatureData.email signatureData) outputX outputY 10 Helvetica (rgb 0 0 0)
    | date, _ =>
        drawText (SignatureData.date signatureData) outputX outputY 10 Helvetica (rgb 0 0 0)
    end.
Proof.
  unfold fieldOp, drawField. by destruct (PlacedField.type field), signatureImage.
Qed.

Lemma Map_get_elem {V} (m : list (Z * V)) key v :
  NoDup m.*1 -> (key, v) ∈ m -> Map_get m key = Some v.
Proof.
  induction m as [| [k v0] rest IH]; intros Hnd Hin.
  - by apply elem_of_nil in Hin.
  - rewrite fmap_cons in Hnd. apply NoDup_cons in Hnd as [Hk Hnd]. simpl.
    apply elem_of_cons in Hin as [[= -> ->] | Hin].
    + by rewrite decide_True.
    + rewrite decide_False; [by apply IH |].
      intros ->. apply Hk. by apply (list_elem_of_fmap_2 fst _ (key, v)).
Qed.

Lemma Map_get_Some_elem {V} (m : list (Z * V)) key v :
  Map_get m key = Some v -> (key, v) ∈ m.
Proof.
  induction m as [| [k v0] rest IH]; simpl; [done |].
  destruct (decide (k = key)) as [-> | Hne].
  - intros [= ->]. apply list_elem_of_here.
  - intros Hget. apply list_elem_of_further. by apply IH.
Qed.

Section Drawing.

Variable encodes : string -> bool.
Variable signatureData : SignatureData.t.
Variable signatureImage : option PDFImage.

Lemma fieldOp_accepts pageWidth pageHeight field :
  accepts encodes (fieldOp signatureData signatureImage pageWidth pageHeight field)
  = fieldAccepted encodes signatureData signatureImage field.
Proof.
  unfold fieldAccepted. rewrite !fieldOp_position.
  by destruct (PlacedField.type field), signatureImage.
Qed.

Lemma drawField_fieldOp page field :
  drawField encodes signatureData signatureImage page field
  = draw encodes page
      (fieldOp signatureData signatureImage
         (PDFPage.width page) (PDFPage.height page) field).
Proof.
  rewrite fieldOp_position. unfold drawField.
  by destruct (PlacedField.type field), signatureImage.
Qed.

Lemma drawField_spec page field :
  drawField encodes signatureData signatureImage page field
  = if fieldAccepted encodes signatureData signatureImage field
    then Some (addInstruction page
                 (fieldOp signatureData signatureImage
                    (PDFPage.width page) (PDFPage.height page) field))
    else None.
Proof. rewrite drawField_fieldOp. unfold draw. by rewrite fieldOp_accepts. Qed.

Lemma withFields_nil page : withFields signatureData signatureImage page [] = page.
Proof. destruct page. unfold withFields. simpl. by rewrite app_nil_r. Qed.

Lemma withFields_cons page field fields :
  withFields signatureData signatureImage
    (addInstruction page
       (fieldOp signatureData signatureImage
          (PDFPage.width page) (PDFPage.height page) field)) fields
  = withFields signatureData signatureImage page (field :: fields).
Proof. unfold withFields, addInstruction. simpl. by rewrite <- app_assoc. Qed.

Lemma withFields_app page fields fields' :
  withFields signatureData signatureImage
    (withFields signatureData signatureImage page fields) fields'
  = withFields signatureData signatureImage page (fields ++ fields').
Proof. unfold withFields. simpl. by rewrite map_app, app_assoc. Qed.

Lemma drawFields_Some page fields :
  Forall (fun f => fieldAccepted encodes signatureData signatureImage f = true) fields ->
  drawFields encodes signatureData signatureImage page fields
  = Some (withFields signatureData signatureImage page fields).
Proof.
  intros Hall. revert page. induction Hall as [| f fields Hf _ IH]; intros page; simpl.
  - by rewrite withFields_nil.
  - rewrite drawField_spec, Hf, IH. by rewrite withFields_cons.
Qed.

Lemma drawFields_None page fields f :
  f ∈ fields ->
  fieldAccepted encodes signatureData signatureImage f = false ->
  drawFields encodes signatureData signatureImage page fields = None.
Proof.
  intros Hin Hf. revert page.
  induction Hin as [f fields | f g fields _ IH]; intros page; simpl.
  - by rewrite drawField_spec, Hf.
  - destruct (drawField _ _ _ _ _); [by apply IH | done].
Qed.

Lemma applyPageFields_length pages entry pages' :
  applyPageFields encodes signatureData signatureImage pages entry = Some pages' ->
  length pages' = length pages.
Proof.
  destruct entry as [pageNumber fields]. unfold applyPageFields.
  destruct (_ && _); [| by intros [= <-]].
  destruct (pages !! _); [| by intros [= <-]].
  destruct (drawFields _ _ _ _ _); [| done].
  intros [= <-]. by rewrite length_insert.
Qed.

Lemma applyPageFields_Some pages pageNumber fields :
  ((1 <= pageNumber <= Z.of_nat (length pages))%Z ->
   Forall (fun f => fieldAccepted encodes signatureData signatureImage f = true) fields) ->
  exists pages',
    applyPageFields encodes signatureData signatureImage pages (pageNumber, fields)
    = Some pages'
    /\ forall i page,
         pages !! i = Some page ->
         pages' !! i
         = Some (if decide (pageNumber = Z.of_nat i + 1)%Z
                 then withFields signatureData signatureImage page fields
                 else page).
Proof.
  intros Hall. unfold applyPageFields.
  destruct (bool_decide (0 <= pageNumber - 1)%Z) eqn:Hlo; simpl.
  - apply bool_decide_eq_true in Hlo.
    destruct (bool_decide (pageNumber - 1 < Z.of_nat (length pages))%Z) eqn:Hhi.
    + apply bool_decide_eq_true in Hhi.
      destruct (pages !! Z.to_nat (pageNumber - 1)) as [target |] eqn:Ht.
      * rewrite drawFields_Some by (apply Hall; lia).
        eexists. split; [reflexivity |]. intros i page Hi.
        pose proof (lookup_lt_Some _ _ _ Hi) as Hlt.
        destruct (decide (pageNumber = Z.of_nat i + 1)%Z) as [-> | Hne].
        -- replace (Z.to_nat (Z.of_nat i + 1 - 1)) with i in * by lia.
           rewrite list_lookup_insert_eq by done. congruence.
        -- rewrite list_lookup_insert_ne by lia. done.
      * apply lookup_ge_None in Ht. lia.
    + apply bool_decide_eq_false in Hhi. eexists. split; [reflexivity |].
      intros i page Hi. pose proof (lookup_lt_Some _ _ _ Hi).
      rewrite decide_False by lia. done.
  - apply bool_decide_eq_false in Hlo. eexists. split; [reflexivity |].
    intros i page Hi. pose proof (lookup_lt_Some _ _ _ Hi).
    rewrite decide_False by lia. done.
Qed.

Lemma applyPageFields_None pages pageNumber fields f :
  (1 <= pageNumber <= Z.of_nat (length pages))%Z ->
  f ∈ fields ->
  fieldAccepted encodes signatureData signatureImage f = false ->
  applyPageFields encodes signatureData signatureImage pages (pageNumber, fields) = None.
Proof.
  intros Hrange Hin Hf. unfold applyPageFields.
  rewrite !bool_decide_true by lia. simpl.
  destruct (lookup_lt_is_Some_2 pages (Z.to_nat (pageNumber - 1))) as [page ->]; [lia |].
  by rewrite (drawFields_None page fields f).
Qed.

Lemma applyEntries_length groups pages pages' :
  applyEntries encodes signatureData signatureImage pages groups = Some pages' ->
  length pages' = length pages.
Proof.
  revert pages. induction groups as [| entry groups IH]; intros pages;
    cbn [applyEntries].
  - by intros [= <-].
  - destruct (applyPageFields _ _ _ _ _) as [pages1 |] eqn:Hstep; [| done].
    intros Hrest. rewrite (IH _ Hrest). by apply applyPageFields_length in Hstep.
Qed.

Lemma applyEntries_Some groups pages :
  NoDup groups.*1 ->
  (forall k fs,
     (k, fs) ∈ groups -> (1 <= k <= Z.of_nat (length pages))%Z ->
     Forall (fun f => fieldAccepted encodes signatureData signatureImage f = true) fs) ->
  exists pages',
    applyEntries encodes signatureData signatureImage pages groups = Some pages'
    /\ forall i page,
         pages !! i = Some page ->
         pages' !! i
         = Some (withFields signatureData signatureImage page
                   (default [] (Map_get groups (Z.of_nat i + 1)))).
Proof.
  revert pages. induction groups as [| [k fs] groups IH]; intros pages Hnd Hall.
  - exists pages. split; [done |]. intros i page Hi. simpl. by rewrite withFields_nil.
  - rewrite fmap_cons in Hnd. apply NoDup_cons in Hnd as [Hk Hnd].
    destruct (applyPageFields_Some pages k fs) as (pages1 & Hstep & Hlookup1).
    { intros Hrange. apply (Hall k fs); [apply list_elem_of_here | done]. }
    pose proof (applyPageFields_length _ _ _ Hstep) as Hlen1.
    destruct (IH pages1 Hnd) as (pages' & Hrest & Hlookup).
    { intros k' fs' Hin Hrange. rewrite Hlen1 in Hrange.
      apply (Hall k' fs'); [by apply list_elem_of_further | done]. }
    exists pages'. cbn [applyEntries]. rewrite Hstep. split; [done |].
    intros i page Hi. rewrite (Hlookup i _ (Hlookup1 i page Hi)).
    destruct (decide (k = Z.of_nat i + 1)%Z) as [-> | Hne].
    + rewrite Map_get_notin by done. simpl. rewrite decide_True by done. simpl.
      by rewrite withFields_app, app_nil_r.
    + simpl. by rewrite decide_False by done.
Qed.

Lemma applyEntries_None groups pages k fs f :
  (k, fs) ∈ groups ->
  (1 <= k <= Z.of_nat (length pages))%Z ->
  f ∈ fs ->
  fieldAccepted encodes signatureData signatureImage f = false ->
  applyEntries encodes signatureData signatureImage pages groups = None.
Proof.
  intros Hin Hrange Hf Hbad. revert pages Hrange.
  induction groups as [| entry groups IH]; intros pages Hrange.
  - by apply elem_of_nil in Hin.
  - cbn [applyEntries]. apply elem_of_cons in Hin as [<- | Hin].
    + by rewrite (applyPageFields_None pages k fs f).
    + destruct (applyPageFields _ _ _ _ _) as [pages1 |] eqn:Hstep; [| done].
      apply IH; [done |]. by rewrite (applyPageFields_length _ _ _ Hstep).
Qed.

Lemma composite_length pages fieldPositions :
  length (composite signatureData signatureImage pages fieldPositions) = length pages.
Proof. apply length_imap. Qed.

Lemma composite_lookup pages fieldPositions i page :
  pages !! i = Some page ->
  composite signatureData signatureImage pages fieldPositions !! i
  = Some (withFields signatureData signatureImage page
            (filter (fun f => PlacedField.page f = Z.of_nat i + 1)%Z fieldPositions)).
Proof. intros Hi. unfold composite. by rewrite list_lookup_imap, Hi. Qed.

(** The compositor when every in-range field is taken: each page receives
    the instructions of the fields placed on it, in list order. *)
Lemma applyFields_Some pages fieldPositions :
  (forall f, f ∈ fieldPositions ->
             (1 <= PlacedField.page f <= Z.of_nat (length pages))%Z ->
             fieldAccepted encodes signatureData signatureImage f = true) ->
  applyFields encodes signatureData signatureImage pages fieldPositions
  = Some (composite signatureData signatureImage pages fieldPositions).
Proof.
  intros Hall. unfold applyFields.
  pose proof (fold_groupField_NoDup fieldPositions [] (NoDup_nil_2)) as Hnd.
  fold (groupByPage fieldPositions) in Hnd.
  destruct (applyEntries_Some (groupByPage fieldPositions) pages Hnd)
    as (pages' & Hrun & Hlookup).
  { intros k fs Hin Hrange. apply Map_get_elem in Hin; [| done].
    unfold groupByPage in Hin. rewrite fold_groupField_get in Hin. simpl in Hin.
    apply Forall_forall. intros f Hf.
    destruct (filter (fun f => PlacedField.page f = k) fieldPositions)
      as [| f0 rest] eqn:Hfilter; [done |].
    injection Hin as <-. rewrite <- Hfilter in Hf.
    apply list_elem_of_filter in Hf as [Hpage Hf]. apply Hall; [done | lia]. }
  rewrite Hrun. f_equal. apply list_eq. intros i.
  destruct (pages !! i) as [page |] eqn:Hi.
  - rewrite (Hlookup i page Hi), (composite_lookup _ _ _ _ Hi). do 2 f_equal.
    unfold groupByPage. rewrite fold_groupField_get. simpl.
    by destruct (filter _ fieldPositions).
  - apply lookup_ge_None in Hi.
    rewrite !(proj2 (lookup_ge_None _ _)); [done | |].
    + by rewrite composite_length.
    + by rewrite (applyEntries_length _ _ _ Hrun).
Qed.

(** The compositor throws as soon as one in-range field is not taken. *)
Lemma applyFields_None pages fieldPositions f :
  f ∈ fieldPositions ->
  (1 <= PlacedField.page f <= Z.of_nat (length pages))%Z ->
  fieldAccepted encodes signatureData signatureImage f = false ->
  applyFields encodes signatureData signatureImage pages fieldPositions = None.
Proof.
  intros Hin Hrange Hbad. unfold applyFields.
  apply (applyEntries_None _ _ (PlacedField.page f)
           (filter (fun g => PlacedField.page g = PlacedField.page f) fieldPositions) f);
    [| done | by apply list_elem_of_filter | done].
  apply Map_get_Some_elem. unfold groupByPage. rewrite fold_groupField_get. simpl.
  destruct (filter _ fieldPositions) as [| g rest] eqn:Hfilter; [| done].
  assert (f ∈ filter (fun g => PlacedField.page g = PlacedField.page f) fieldPositions)
    as Hf by by apply list_elem_of_filter.
  rewrite Hfilter in Hf. by apply elem_of_nil in Hf.
Qed.

(** Either every in-range field is taken, or one of them is not. *)
Lemma applyFields_cases (pages : list PDFPage.t) (fieldPositions : list PlacedField.t) :
  (forall f, f ∈ fieldPositions ->
             (1 <= PlacedField.page f <= Z.of_nat (length pages))%Z ->
             fieldAccepted encodes signatureData signatureImage f = true)
  \/ exists f,
       f ∈ fieldPositions
       /\ (1 <= PlacedField.page f <= Z.of_nat (length pages))%Z
       /\ fieldAccepted encodes signatureData signatureImage f = false.
Proof.
  induction fieldPositions as [| f fields IH].
  - left. intros f Hf. by apply elem_of_nil in Hf.
  - destruct IH as [Hall | (g & Hg & Hrange & Hbad)].
    + destruct (decide (1 <= PlacedField.page f <= Z.of_nat (length pages))%Z) as [Hr | Hr].
      * destruct (fieldAccepted encodes signatureData signatureImage f) eqn:Hf.
        -- left. intros g Hg Hrange. apply elem_of_cons in Hg as [-> | Hg]; auto.
        -- right. exists f. split; [apply list_elem_of_here | done].
      * left. intros g Hg Hrange. apply elem_of_cons in Hg as [-> | Hg]; [done | auto].
    + right. exists g. split; [by apply list_elem_of_further | done].
Qed.

(** What a successful run of the compositor shows: every in-range field was
    taken, and the pages are the composite. *)
Lemma applyFields_Some_inv pages fieldPositions pages' :
  applyFields encodes signatureData signatureImage pages fieldPositions = Some pages' ->
  pages' = composite signatureData signatureImage pages fieldPositions
  /\ forall f, f ∈ fieldPositions ->
               (1 <= PlacedField.page f <= Z.of_nat (length pages))%Z ->
               fieldAccepted encodes signatureData signatureImage f = true.
Proof.
  intros Hrun.
  destruct (applyFields_cases pages fieldPositions) as [Hall | (f & Hf & Hrange & Hbad)].
  - rewrite (applyFields_Some _ _ Hall) in Hrun. by injection Hrun as <-.
  - by rewrite (applyFields_None _ _ f Hf Hrange Hbad) in Hrun.
Qed.

Lemma composite_filter_inRange pages fieldPositions :
  composite signatureData signatureImage pages
    (filter (fun f => (1 <= PlacedField.page f <= Z.of_nat (length pages))%Z)
       fieldPositions)
  = composite signatureData signatureImage pages fieldPositions.
Proof.
  apply list_eq. intros i. destruct (pages !! i) as [page |] eqn:Hi.
  - rewrite !(composite_lookup _ _ _ _ Hi). do 2 f_equal.
    rewrite list_filter_filter. apply list_filter_iff. intros f.
    apply lookup_lt_Some in Hi. lia.
  - apply lookup_ge_None in Hi.
    rewrite !(proj2 (lookup_ge_None _ _)); [done | |]; by rewrite composite_length.
Qed.

(** The fields outside the page range do not bear on the outcome. *)
Lemma applyFields_filter_inRange pages fieldPositions :
  applyFields encodes signatureData signatureImage pages
    (filter (fun f => (1 <= PlacedField.page f <= Z.of_nat (length pages))%Z)
       fieldPositions)
  = applyFields encodes signatureData signatureImage pages fieldPositions.
Proof.
  destruct (applyFields_cases pages fieldPositions) as [Hall | (f & Hf & Hrange & Hbad)].
  - rewrite !applyFields_Some; [by rewrite composite_filter_inRange | done |].
    intros f Hf Hrange. apply list_elem_of_filter in Hf as [_ Hf]. by apply Hall.
  - rewrite !(applyFields_None _ _ f); try done. by apply list_elem_of_filter.
Qed.

End Drawing.

Lemma fieldAccepted_spec encodes signatureData signatureImage field :
  fieldAccepted encodes signatureData signatureImage field
  = match PlacedField.type field, signatureImage with
    | signature, Some _ => true
    | signature, None => encodes "[Digital Signature]"
    | name, _ => encodes (SignatureData.name signatureData)
    | email, _ => encodes (SignatureData.email signatureData)
    | date, _ => encodes (SignatureData.date signatureData)
    end.
Proof.
  unfold fieldAccepted. rewrite fieldOp_position.
  by destruct (PlacedField.type field), signatureImage.
Qed.

Lemma generatePDFWithPositionedFields_Some load embedSignature encodes
    originalFile signatureData fieldPositions blob :
  generatePDFWithPositionedFields load embedSignature encodes originalFile
    signatureData fieldPositions = Some blob ->
  exists pages,
    load originalFile = Some pages
    /\ blob = {| Blob.pages :=
                   composite signatureData (processSignature embedSignature signatureData)
                     pages fieldPositions;
                 Blob.type := "application/pdf" |}
    /\ forall f, f ∈ fieldPositions ->
                 (1 <= PlacedField.page f <= Z.of_nat (length pages))%Z ->
                 fieldAccepted encodes signatureData
                   (processSignature embedSignature signatureData) f = true.
Proof.
  unfold generatePDFWithPositionedFields.
  destruct (load originalFile) as [pages |]; [| done].
  destruct (applyFields _ _ _ _ _) as [pages' |] eqn:Hrun; [| done].
  intros [= <-]. apply applyFields_Some_inv in Hrun as [-> Hall]. by exists pages.
Qed.

Lemma generatePDFWithPositionedFields_accepted load embedSignature encodes
    originalFile signatureData fieldPositions pages :
  load originalFile = Some pages ->
  (forall f, f ∈ fieldPositions ->
             (1 <= PlacedField.page f <= Z.of_nat (length pages))%Z ->
             fieldAccepted encodes signatureData
               (processSignature embedSignature signatureData) f = true) ->
  generatePDFWithPositionedFields load embedSignature encodes originalFile
    signatureData fieldPositions
  = Some {| Blob.pages :=
              composite signatureData (processSignature embedSignature signatureData)
                pages fieldPositions;
            Blob.type := "application/pdf" |}.
Proof.
  intros Hload Hall. unfold generatePDFWithPositionedFields.
  by rewrite Hload, applyFields_Some.
Qed.

(** C1.  Whenever the compositor returns a document, a field of the list
    whose page number lies within the loaded document has been drawn on
    that page: with [outputX = (x / 600) * pageWidth] and
    [outputY = pageHeight - (y / 800) * pageHeight - 20], the text of a
    [name], [email] or [date] field is drawn at [(outputX, outputY)] and the
    image of a [signature] field at [(outputX, outputY - 30)]; the image is
    the one embedded from a non-empty signature string, and the placeholder
    text that stands in for it when the string is empty or cannot be
    embedded is drawn at [(outputX, outputY)].  The compositor does return
    a document when the file loads and the font encodes the text of every
    field within the page range.  In particular a [name] field at preview
    position (100, 100) on a 612 x 792 page is drawn at (102, 693 - 20). *)
Theorem positioned_field_drawn
    (load : File.t -> option (list PDFPage.t))
    (embedSignature : string -> option PDFImage)
    (encodes : string -> bool)
    (originalFile : File.t) (signatureData : SignatureData.t)
    (fieldPositions : list PlacedField.t) (pages : list PDFPage.t)
    (field : PlacedField.t) :
  let signatureImage :=
    if decide (SignatureData.signature signatureData = "") then None
    else embedSignature (SignatureData.signature signatureData) in
  load originalFile = Some pages ->
  field ∈ fieldPositions ->
  (1 <= PlacedField.page field <= Z.of_nat (length pages))%Z ->
  ((forall f, f ∈ fieldPositions ->
              (1 <= PlacedField.page f <= Z.of_nat (length pages))%Z ->
              fieldAccepted encodes signatureData signatureImage f = true) ->
   exists blob,
     generatePDFWithPositionedFields load embedSignature encodes originalFile
       signatureData fieldPositions = Some blob)
  /\ forall blob,
       generatePDFWithPositionedFields load embedSignature encodes originalFile
         signatureData fieldPositions = Some blob ->
       exists page page' op,
         pages !! Z.to_nat (PlacedField.page field - 1) = Some page
         /\ Blob.pages blob !! Z.to_nat (PlacedField.page field - 1) = Some page'
         /\ op ∈ PDFPage.content page'
         /\ let pageWidth := PDFPage.width page in
            let pageHeight := PDFPage.height page in
            let outputX := (PlacedField.x field / 600 * pageWidth)%Q in
            let outputY := (pageHeight - PlacedField.y field / 800 * pageHeight - 20)%Q in
            op = match PlacedField.type field, signatureImage with
                 | signature, Some image =>
                     drawImage image outputX (outputY - 30)
                       (Qmin (PlacedField.width field * (3 # 2)) 120)
                       (Qmin (PlacedField.height field * (3 # 2)) 40)
                 | signature, None =>
                     drawText "[Digital Signature]" outputX outputY 10 Helvetica (rgb 0 0 0)
                 | name, _ =>
                     drawText (SignatureData.name signatureData) outputX outputY 12
                       Helvetica (rgb 0 0 0)
                 | email, _ =>
                     drawText (SignatureData.email signatureData) outputX outputY 10
                       Helvetica (rgb 0 0 0)
                 | date, _ =>
                     drawText (SignatureData.date signatureData) outputX outputY 10
                       Helvetica (rgb 0 0 0)
                 end
            /\ (DrawOp_x op == outputX)%Q
            /\ (DrawOp_y op ==
                  outputY - match PlacedField.type field, signatureImage with
                            | signature, Some _ => 30
                            | _, _ => 0
                            end)%Q
            /\ (PlacedField.type field = name ->
                (PlacedField.x field == 100)%Q -> (PlacedField.y field == 100)%Q ->
                (pageWidth == 612)%Q -> (pageHeight == 792)%Q ->
                DrawOp_text op = Some (SignatureData.name signatureData)
                /\ (DrawOp_x op == 102)%Q /\ (DrawOp_y op == 693 - 20)%Q).
Proof.
  intros image Hload Hin Hrange.
  change image with (processSignature embedSignature signatureData) in *.
  clear image. set (image := processSignature embedSignature signatureData).
  split.
  - intros Hall. eexists.
    by apply (generatePDFWithPositionedFields_accepted _ _ _ _ _ _ pages).
  - intros blob Hrun.
    apply generatePDFWithPositionedFields_Some in Hrun as (pages0 & Hload0 & -> & _).
    assert (pages0 = pages) as -> by congruence. fold image.
    destruct (lookup_lt_is_Some_2 pages (Z.to_nat (PlacedField.page field - 1)))
      as [page Hpage]; [lia |].
    eexists page, _, (fieldOp signatureData image (PDFPage.width page)
                        (PDFPage.height page) field).
    split; [exact Hpage |]. cbn [Blob.pages].
    split; [by apply composite_lookup |].
    split.
    + cbn [withFields PDFPage.content]. apply elem_of_app. right.
      apply list_elem_of_fmap_2. apply list_elem_of_filter. split; [lia | done].
    + cbv zeta. rewrite fieldOp_position.
      destruct (PlacedField.type field) eqn:Htype, image as [img |];
        (split; [reflexivity |]); cbn [DrawOp_x DrawOp_y DrawOp_text];
        (split; [reflexivity |]); (split; [ring |]);
        intros Hname Hx Hy Hw Hh; try discriminate Hname;
        rewrite Hx, Hy, Hw, Hh; repeat split; reflexivity.
Qed.

Lemma groupByPage_get fieldPositions n :
  Map_get (groupByPage fieldPositions) n
  = match filter (fun f => PlacedField.page f = n) fieldPositions with
    | [] => None
    | here => Some here
    end.
Proof.
  unfold groupByPage. rewrite fold_groupField_get. simpl.
  by destruct (filter _ fieldPositions).
Qed.

(** C4.  The compositor groups the fields by page number, one map entry
    per page number holding the fields of that page in list order.  The
    fields whose page number is below 1 or above the page count are
    skipped: compositing the whole list and compositing its in-range fields
    alone have the same outcome, so such a field raises no error, whatever
    it holds.  When the document loads and the font encodes the text of
    every in-range field, the compositor returns a document; and every
    document it returns has exactly the pages that were loaded, each with
    the instructions of all the fields placed on it, in list order. *)
Theorem out_of_range_fields_skipped
    (load : File.t -> option (list PDFPage.t))
    (embedSignature : string -> option PDFImage)
    (encodes : string -> bool)
    (originalFile : File.t) (signatureData : SignatureData.t)
    (fieldPositions : list PlacedField.t) (pages : list PDFPage.t) :
  load originalFile = Some pages ->
  let inRange f := (1 <= PlacedField.page f <= Z.of_nat (length pages))%Z in
  let signatureImage :=
    if decide (SignatureData.signature signatureData = "") then None
    else embedSignature (SignatureData.signature signatureData) in
  NoDup (groupByPage fieldPositions).*1
  /\ (forall n,
        Map_get (groupByPage fieldPositions) n
        = match filter (fun f => PlacedField.page f = n) fieldPositions with
          | [] => None
          | here => Some here
          end)
  /\ generatePDFWithPositionedFields load embedSignature encodes originalFile
       signatureData (filter inRange fieldPositions)
     = generatePDFWithPositionedFields load embedSignature encodes originalFile
         signatureData fieldPositions
  /\ ((forall f, f ∈ fieldPositions -> inRange f ->
                 fieldAccepted encodes signatureData signatureImage f = true) ->
      exists blob,
        generatePDFWithPositionedFields load embedSignature encodes originalFile
          signatureData fieldPositions = Some blob)
  /\ forall blob,
       generatePDFWithPositionedFields load embedSignature encodes originalFile
         signatureData fieldPositions = Some blob ->
       length (Blob.pages blob) = length pages
       /\ forall i page,
            pages !! i = Some page ->
            exists page',
              Blob.pages blob !! i = Some page'
              /\ PDFPage.width page' = PDFPage.width page
              /\ PDFPage.height page' = PDFPage.height page
              /\ PDFPage.content page'
                 = PDFPage.content page
                   ++ map (fieldOp signatureData signatureImage
                             (PDFPage.width page) (PDFPage.height page))
                        (filter (fun f => PlacedField.page f = Z.of_nat i + 1)%Z
                           fieldPositions).
Proof.
  intros Hload inRange image.
  change image with (processSignature embedSignature signatureData) in *.
  clear image. set (image := processSignature embedSignature signatureData).
  split; [apply fold_groupField_NoDup, NoDup_nil_2 |].
  split; [apply groupByPage_get |].
  split.
  { unfold generatePDFWithPositionedFields. rewrite Hload. cbv zeta.
    by rewrite applyFields_filter_inRange. }
  split.
  - intros Hall. eexists.
    by apply (generatePDFWithPositionedFields_accepted _ _ _ _ _ _ pages).
  - intros blob Hrun.
    apply generatePDFWithPositionedFields_Some in Hrun as (pages0 & Hload0 & -> & _).
    assert (pages0 = pages) as -> by congruence. fold image. cbn [Blob.pages].
    split; [apply composite_length |].
    intros i page Hi. eexists. split; [by apply composite_lookup |]. done.
Qed.
(** ** Centering offset *)





(** ** Identifiers *)

Lemma placedId_inj k1 k2 t1 t2 :
  placedId k1 t1 = placedId k2 t2 -> k1 = k2 /\ t1 = t2.
Proof.
  unfold placedId. intros H. apply (inj (String.append "placed-")) in H.
  assert (k1 = k2 /\ pretty t1 = pretty t2) as [-> Hp].
  { generalize dependent (pretty t1). generalize dependent (pretty t2).
    intros p2 p1 H.
    destruct k1, k2; cbv [String.append FieldType_str] in H;
      try discriminate H; split; congruence. }
  split; [reflexivity | by apply (inj pretty)].
Qed.

(** C5 as stated fails: two gestures of the same kind that end within one
    millisecond at different places commit two different records with one
    id, and the preview then holds both. *)
Lemma same_millisecond_id_counterexample :
  let now := 1730000000000%Z in
  let c1 := GestureCommit 1 now true (dragEnd_name 10 20) in
  let c2 := GestureCommit 1 now true (dragEnd_name 200 300) in
  c1 <> c2
  /\ exists f1 f2,
       commitField c1 = Some f1 /\ commitField c2 = Some f2
       /\ f1 <> f2
       /\ PlacedField.id f1 = PlacedField.id f2
       /\ Preview.placedFields
            (handleDragEnd
               (handleDragEnd (Preview_init []) now true (dragEnd_name 10 20)).1
               now true (dragEnd_name 200 300)).1
          = [f1; f2].
Proof.
  cbv zeta. split; [intros H; discriminate H |].
  eexists _, _. split; [reflexivity |]. split; [reflexivity |].
  split; [intros H; discriminate H |]. split; reflexivity.
Qed.

(** C5, amended.  Two commits, through either path, emit the same id exactly
    when they are of the same kind and read the same millisecond. *)
Theorem commit_ids_distinct (c1 c2 : Commit) (f1 f2 : PlacedField.t) :
  commitField c1 = Some f1 ->
  commitField c2 = Some f2 ->
  PlacedField.id f1 = PlacedField.id f2
  <-> PlacedField.type f1 = PlacedField.type f2 /\ commitTime c1 = commitTime c2.
Proof.
  intros H1 H2.
  destruct (commitField_shape c1 f1 H1) as (-> & _).
  destruct (commitField_shape c2 f2 H2) as (-> & _).
  split; [apply placedId_inj | by intros [-> ->]].
Qed.

(** ** Finalize: the guards *)

Lemma isEmptyField_spec field :
  isEmptyField field = true
  <-> PlacedField.value field = None
      \/ exists v, PlacedField.value field = Some v /\ trim v = "".
Proof.
  unfold isEmptyField. destruct (PlacedField.value field) as [v |].
  - rewrite orb_true_iff, !bool_decide_eq_true. split.
    + intros [-> | Ht]; right; eexists; split; try reflexivity; done.
    + intros [Hn | (v' & Hv & Ht)]; [discriminate | right; congruence].
  - split; [by left | done].
Qed.

(** C7.  When the stored field list of the document is empty, or one of
    its fields has no value or a value that trims to the empty string, the
    finalize handler stops at its guard: its only effect is one alert (no
    blob is generated and none is offered for download) and the state, the
    field store included, is returned as it was. *)
Theorem finalize_aborts_on_unfilled
    (load : File.t -> option (list PDFPage.t))
    (embedSignature : string -> option PDFImage) (localeNow : string)
    (encodes : string -> bool)
    (st : App.t) (file : File.t) :
  let fields := getDocumentFields (App.documentsWithFields st) file in
  fields = []
  \/ (exists field,
        field ∈ fields
        /\ (PlacedField.value field = None
            \/ exists v, PlacedField.value field = Some v /\ trim v = "")) ->
  exists message,
    handleDownloadDocument load embedSignature localeNow encodes st file
    = (st, [alert message])
    /\ message = if decide (fields = [])
                 then "Please add and fill some fields before downloading."
                 else "Please fill in all fields before downloading.".
Proof.
  intros fields H. unfold handleDownloadDocument. fold fields.
  destruct (decide (fields = [])) as [-> | Hne].
  - eexists. split; reflexivity.
  - destruct H as [H | (field & Hin & Hempty)]; [done |].
    rewrite decide_False by (by destruct fields).
    apply isEmptyField_spec in Hempty.
    assert (field ∈ List.filter isEmptyField fields) as Hin'.
    { apply list_elem_of_In, filter_In. split; [by apply list_elem_of_In | done]. }
    rewrite bool_decide_true.
    + eexists. split; reflexivity.
    + destruct (List.filter isEmptyField fields); [by apply elem_of_nil in Hin' | simpl; lia].
Qed.

Lemma trimEnd_keeps_head c rest :
  isWhiteSpace c = false -> trimEnd (String c rest) <> "".
Proof. intros Hc. simpl. rewrite Hc. by destruct (trimEnd rest). Qed.

Lemma trimStart_spec s :
  trimStart s = ""
  \/ exists c rest, trimStart s = String c rest /\ isWhiteSpace c = false.
Proof.
  induction s as [| c rest IH]; simpl; [by left |].
  destruct (isWhiteSpace c) eqn:Hc; [done | right; eauto].
Qed.

Lemma trimStart_empty s :
  trimStart s = ""
  <-> Forall (fun c => isWhiteSpace c = true) (list_ascii_of_string s).
Proof.
  induction s as [| c rest IH]; simpl; [by split |].
  destruct (isWhiteSpace c) eqn:Hc.
  - rewrite IH. split; [by constructor | by inversion 1].
  - split; [done | inversion 1; congruence].
Qed.

(** A string trims to the empty string exactly when it consists of white
    space. *)
Lemma trim_empty s :
  trim s = ""
  <-> Forall (fun c => isWhiteSpace c = true) (list_ascii_of_string s).
Proof.
  rewrite <- trimStart_empty. unfold trim.
  destruct (trimStart_spec s) as [-> | (c & rest & -> & Hc)]; [done |].
  split; [| done]. intros H. by apply trimEnd_keeps_head in H.
Qed.

(** ** Finalize: the suggested file name *)

Lemma split_first sep s :
  exists piece pieces,
    split sep s = piece :: pieces
    /\ ~ In sep (list_ascii_of_string piece)
    /\ (s = piece \/ exists rest, s = piece +:+ String sep rest).
Proof.
  induction s as [| c s IH]; simpl.
  - exists "", []. repeat split; [tauto | by left].
  - destruct (decide (c = sep)) as [-> | Hne].
    + exists "", (split sep s). repeat split; [tauto | right; by exists s].
    + destruct IH as (piece & pieces & -> & Hnot & Hs).
      exists (String c piece), pieces. repeat split.
      * simpl. intros [Heq | Hin]; [congruence | tauto].
      * destruct Hs as [-> | (rest & ->)]; [by left | right; by exists rest].
Qed.

Lemma split_app_sep sep stem rest :
  ~ In sep (list_ascii_of_string stem) ->
  exists pieces, split sep (stem +:+ String sep rest) = stem :: pieces.
Proof.
  induction stem as [| c stem IH]; simpl; intros Hnot.
  - rewrite decide_True by done. eauto.
  - rewrite decide_False by (intros ->; tauto).
    destruct IH as (pieces & ->); [tauto | eauto].
Qed.

Lemma originalName_spec file :
  ~ In "."%char (list_ascii_of_string (originalName file))
  /\ (File.name file = originalName file
      \/ exists rest, File.name file = originalName file +:+ String "." rest).
Proof.
  unfold originalName.
  destruct (split_first "." (File.name file)) as (piece & pieces & -> & Hnot & Hs).
  done.
Qed.

Lemma originalName_stem file stem rest :
  File.name file = stem +:+ String "." rest ->
  ~ In "."%char (list_ascii_of_string stem) ->
  originalName file = stem.
Proof.
  intros Hname Hnot. unfold originalName. rewrite Hname.
  by destruct (split_app_sep "." stem rest Hnot) as (pieces & ->).
Qed.


Lemma draw_Some encodes page op page' :
  draw encodes page op = Some page' ->
  page' = addInstruction page op /\ accepts encodes op = true.
Proof. unfold draw. destruct (accepts encodes op); [by intros [= <-] | done]. Qed.

Lemma draw_accepted encodes page op :
  accepts encodes op = true -> draw encodes page op = Some (addInstruction page op).
Proof. unfold draw. by intros ->. Qed.

Lemma generateSignaturePagePDF_spec load embedSignature localeNow encodes file signatureData :
  generateSignaturePagePDF load embedSignature localeNow encodes file signatureData
  = match signaturePage embedSignature localeNow encodes signatureData with
    | Some summary =>
        Some {| Blob.pages :=
                  match decide (File.type file = "application/pdf"), load file with
                  | left _, Some originalPages => summary :: originalPages
                  | _, _ => [summary]
                  end;
                Blob.type := "application/pdf" |}
    | None => None
    end.
Proof.
  unfold generateSignaturePagePDF.
  destruct (signaturePage _ _ _ _) as [summary |]; csimpl; [| done].
  destruct (decide _); [destruct (load file) |]; done.
Qed.

Lemma generateSignedPDF_type load embedSignature localeNow encodes file signatureData
    fields blob :
  generateSignedPDF load embedSignature localeNow encodes file signatureData fields
  = inl blob ->
  Blob.type blob = "application/pdf".
Proof.
  unfold generateSignedPDF. cbv zeta. destruct (_ && _).
  - destruct (generatePDFWithPositionedFields _ _ _ _ _ _) as [b |] eqn:Hgen; [| done].
    intros [= <-]. by apply generatePDFWithPositionedFields_Some in Hgen as (? & _ & -> & _).
  - rewrite generateSignaturePagePDF_spec.
    destruct (signaturePage _ _ _ _); [| done]. by intros [= <-].
Qed.

Lemma handleDownloadDocument_download load embedSignature localeNow encodes st file
    blob filename :
  downloadBlob blob filename
    ∈ (handleDownloadDocument load embedSignature localeNow encodes st file).2 ->
  let fields := getDocumentFields (App.documentsWithFields st) file in
  let signatureData :=
    {| SignatureData.name := findValue fields name;
       SignatureData.email := findValue fields email;
       SignatureData.date := findValue fields date;
       SignatureData.signature := findValue fields signature |} in
  fields <> []
  /\ List.filter isEmptyField fields = []
  /\ generateSignedPDF load embedSignature localeNow encodes file signatureData fields
     = inl blob
  /\ filename = originalName file +:+ "_signed.pdf"
  /\ handleDownloadDocument load embedSignature localeNow encodes st file
     = ({| App.documentsWithFields := App.documentsWithFields st;
           App.isGeneratingPDF := false;
           App.preview := App.preview st |},
        [downloadBlob blob filename]).
Proof.
  unfold handleDownloadDocument. cbv zeta.
  set (fields := getDocumentFields (App.documentsWithFields st) file).
  destruct (decide (length fields = 0%nat)) as [Hlen | Hlen].
  { simpl. intros H. apply list_elem_of_singleton in H. discriminate H. }
  destruct (bool_decide (0 < length (List.filter isEmptyField fields))%nat) eqn:Hempty.
  { simpl. intros H. apply list_elem_of_singleton in H. discriminate H. }
  apply bool_decide_eq_false in Hempty.
  destruct (generateSignedPDF _ _ _ _ _ _ _) as [signedPdfBlob | message] eqn:Hgen; simpl;
    intros H; apply list_elem_of_singleton in H; [| discriminate H].
  inversion H; subst. repeat split.
  - by intros ->.
  - destruct (List.filter isEmptyField fields); [done | simpl in Hempty; lia].
Qed.

(** The handler once both guards are passed. *)
Lemma handleDownloadDocument_generate load embedSignature localeNow encodes st file :
  let fields := getDocumentFields (App.documentsWithFields st) file in
  fields <> [] ->
  List.filter isEmptyField fields = [] ->
  handleDownloadDocument load embedSignature localeNow encodes st file
  = ({| App.documentsWithFields := App.documentsWithFields st;
        App.isGeneratingPDF := false;
        App.preview := App.preview st |},
     match generateSignedPDF load embedSignature localeNow encodes file
             (signatureDataOf fields) fields with
     | inl blob => [downloadBlob blob (originalName file +:+ "_signed.pdf")]
     | inr _ => [alert "Error generating signed document. Please try again."]
     end).
Proof.
  intros fields Hne Hfilled. unfold handleDownloadDocument. fold fields.
  rewrite decide_False by (by destruct fields). cbv zeta. rewrite Hfilled.
  rewrite bool_decide_false by (simpl; lia).
  fold (signatureDataOf fields). by destruct (generateSignedPDF _ _ _ _ _ _ _).
Qed.

(** C9 as stated fails: finalizing [notes.txt] suggests
    [notes_signed.pdf], not [notes_signed.txt]. *)
Lemma signed_filename_counterexample :
  let st := app_with notes_txt [filled_name] in
  exists blob,
    (handleDownloadDocument sample_load sample_embed sample_locale sample_encodes
       st notes_txt).2
    = [downloadBlob blob "notes_signed.pdf"]
    /\ File.name notes_txt = "notes" +:+ "." +:+ "txt"
    /\ "notes_signed.pdf" <> "notes" +:+ "_signed." +:+ "txt".
Proof.
  eexists. split; [vm_compute; reflexivity |]. split; [reflexivity |].
  intros H. discriminate H.
Qed.

(** C9, amended.  A finalize that offers a download offers exactly one:
    a blob of type [application/pdf] under a name that ends in
    [_signed.pdf], so the extension is [pdf] whatever the original one
    was.  For an original name [stem.ext] with a single dot and a stem that
    is not empty, the suggested name is [stem_signed.pdf]. *)
Theorem signed_filename
    (load : File.t -> option (list PDFPage.t))
    (embedSignature : string -> option PDFImage) (localeNow : string)
    (encodes : string -> bool)
    (st : App.t) (file : File.t) (blob : Blob.t) (filename : string) :
  downloadBlob blob filename
    ∈ (handleDownloadDocument load embedSignature localeNow encodes st file).2 ->
  (handleDownloadDocument load embedSignature localeNow encodes st file).2
  = [downloadBlob blob filename]
  /\ Blob.type blob = "application/pdf"
  /\ (exists first, filename = first +:+ "_signed.pdf")
  /\ (forall stem ext,
        File.name file = stem +:+ "." +:+ ext ->
        stem <> "" ->
        ~ In "."%char (list_ascii_of_string stem) ->
        ~ In "."%char (list_ascii_of_string ext) ->
        filename = stem +:+ "_signed.pdf").
Proof.
  intros H.
  destruct (handleDownloadDocument_download _ _ _ _ _ _ _ _ H)
    as (_ & _ & Hgen & -> & ->).
  split; [done |]. split; [by apply generateSignedPDF_type in Hgen |].
  split; [by exists (originalName file) |].
  intros stem ext Hstem _ Hdot _. by rewrite (originalName_stem file stem ext).
Qed.

(** ** The fallback summary page *)

Lemma signaturePage_summary embedSignature localeNow encodes signatureData summary :
  signaturePage embedSignature localeNow encodes signatureData = Some summary ->
  PDFPage.width summary = 612%Q
  /\ PDFPage.height summary = 792%Q
  /\ exists rest,
       PDFPage.content summary
       = drawText "Document Signature" 50 720 24 HelveticaBold (rgb 0 0 0)
         :: drawText "Signer Information:" 50 650 16 HelveticaBold (rgb 0 0 0)
         :: drawText ("Name:" +:+ " " +:+ SignatureData.name signatureData)
              50 (650 - 30) 12 Helvetica (rgb 0 0 0)
         :: drawText ("Email:" +:+ " " +:+ SignatureData.email signatureData)
              50 (650 - 30 * 2) 12 Helvetica (rgb 0 0 0)
         :: drawText ("Date:" +:+ " " +:+ SignatureData.date signatureData)
              50 (650 - 30 * 3) 12 Helvetica (rgb 0 0 0)
         :: rest.
Proof.
  unfold signaturePage. cbv zeta. intros H.
  do 5 (apply bind_Some in H as (? & [-> _]%draw_Some & H)).
  apply bind_Some in H as (signed & Hsigned & [-> _]%draw_Some).
  destruct (decide _).
  - injection Hsigned as <-.
    cbn [addInstruction PDFPage.content PDFPage.width PDFPage.height app].
    split; [reflexivity | split; [reflexivity | eexists; reflexivity]].
  - destruct (embedSignature _) as [image |]; csimpl in Hsigned.
    + destruct (draw encodes _ (drawText "Signature:" _ _ _ _ _)) as [labelled |] eqn:Hl;
        csimpl in Hsigned;
        [apply draw_Some in Hl as [-> _]; injection Hsigned as <-
        | apply draw_Some in Hsigned as [-> _]];
        cbn [addInstruction PDFPage.content PDFPage.width PDFPage.height app];
        (split; [reflexivity | split; [reflexivity | eexists; reflexivity]]).
    + apply draw_Some in Hsigned as [-> _].
      cbn [addInstruction PDFPage.content PDFPage.width PDFPage.height app].
      split; [reflexivity | split; [reflexivity | eexists; reflexivity]].
Qed.

(** Drawing the summary page succeeds when the font encodes its lines. *)
Lemma signaturePage_Some embedSignature localeNow encodes signatureData :
  Forall (fun text => encodes text = true) (summaryTexts localeNow signatureData) ->
  exists summary,
    signaturePage embedSignature localeNow encodes signatureData = Some summary.
Proof.
  unfold summaryTexts. intros Hall.
  repeat match goal with
         | H : Forall _ (_ :: _) |- _ => apply Forall_cons in H as [? H]
         end.
  unfold signaturePage. cbv zeta.
  do 5 (rewrite draw_accepted by done; csimpl).
  destruct (decide _); csimpl.
  - rewrite draw_accepted by done. eauto.
  - destruct (embedSignature _) as [image |]; csimpl.
    + destruct (draw encodes _ (drawText "Signature:" _ _ _ _ _)) as [labelled |];
        csimpl; repeat (rewrite draw_accepted by done; csimpl); eauto.
    + repeat (rewrite draw_accepted by done; csimpl). eauto.
Qed.

(** The lines every summary page carries were all encoded. *)
Lemma signaturePage_texts embedSignature localeNow encodes signatureData summary :
  signaturePage embedSignature localeNow encodes signatureData = Some summary ->
  Forall (fun text => encodes text = true)
    ["Document Signature"; "Signer Information:";
     "Name: " +:+ SignatureData.name signatureData;
     "Email: " +:+ SignatureData.email signatureData;
     "Date: " +:+ SignatureData.date signatureData;
     "Document signed on: " +:+ localeNow].
Proof.
  unfold signaturePage. cbv zeta. intros Hpage.
  do 5 (apply bind_Some in Hpage as (? & [-> ?]%draw_Some & Hpage)).
  apply bind_Some in Hpage as (signed & _ & [_ ?]%draw_Some).
  cbn [accepts] in *. repeat constructor; assumption.
Qed.

(** The generator on its fallback path. *)
Lemma generateSignedPDF_fallback load embedSignature localeNow encodes originalFile
    signatureData fieldPositions :
  fieldPositions = [] \/ File.type originalFile <> "application/pdf" ->
  generateSignedPDF load embedSignature localeNow encodes originalFile signatureData
    fieldPositions
  = match signaturePage embedSignature localeNow encodes signatureData with
    | Some summary =>
        inl {| Blob.pages :=
                 match decide (File.type originalFile = "application/pdf"),
                       load originalFile with
                 | left _, Some originalPages => summary :: originalPages
                 | _, _ => [summary]
                 end;
               Blob.type := "application/pdf" |}
    | None => inr "Failed to generate signed PDF"
    end.
Proof.
  intros Hfallback. unfold generateSignedPDF. cbv zeta.
  assert (bool_decide (File.type originalFile = "application/pdf")
          && bool_decide (0 < length fieldPositions)%nat = false) as ->.
  { destruct Hfallback as [-> | Hne]; [apply andb_false_r |].
    by rewrite bool_decide_false. }
  rewrite generateSignaturePagePDF_spec. by destruct (signaturePage _ _ _ _).
Qed.

(** C6 as stated fails: the finalize handler, run on a document with no
    placed field, shows an alert and produces no output at all. *)
Lemma finalize_zero_fields_counterexample :
  getDocumentFields (App.documentsWithFields App_init) contract_pdf = []
  /\ handleDownloadDocument sample_load sample_embed sample_locale sample_encodes
       App_init contract_pdf
     = (App_init, [alert "Please add and fill some fields before downloading."])
  /\ forall blob filename,
       downloadBlob blob filename
         ∉ (handleDownloadDocument sample_load sample_embed sample_locale sample_encodes
              App_init contract_pdf).2.
Proof.
  split; [reflexivity |]. split; [reflexivity |].
  intros blob filename H. apply list_elem_of_singleton in H. discriminate H.
Qed.

(** C6, amended.  The summary page, whenever it is produced, is a
    synthesized 612 x 792 page whose drawn text includes "Name: ..",
    "Email: .." and "Date: ..", and it is produced when the font encodes
    its lines.  [generateSignedPDF], called with no positioned field or on
    a source that is not a PDF, returns a document when the font encodes
    those lines, and every document it returns is the summary page placed
    before the pages of the original when that is a PDF that loads, the
    summary page alone otherwise.  Finalizing a source that is not a PDF,
    with its placed fields filled, offers a download under the same
    condition, and every download it offers is the summary page alone.  The
    finalize handler never gets there with zero placed fields: it stops
    with an alert. *)
Theorem fallback_summary_page
    (load : File.t -> option (list PDFPage.t))
    (embedSignature : string -> option PDFImage) (localeNow : string)
    (encodes : string -> bool) (originalFile : File.t) :
  (forall signatureData summary,
     signaturePage embedSignature localeNow encodes signatureData = Some summary ->
     PDFPage.width summary = 612%Q
     /\ PDFPage.height summary = 792%Q
     /\ (exists op, op ∈ PDFPage.content summary
           /\ DrawOp_text op = Some ("Name:" +:+ " " +:+ SignatureData.name signatureData))
     /\ (exists op, op ∈ PDFPage.content summary
           /\ DrawOp_text op = Some ("Email:" +:+ " " +:+ SignatureData.email signatureData))
     /\ (exists op, op ∈ PDFPage.content summary
           /\ DrawOp_text op = Some ("Date:" +:+ " " +:+ SignatureData.date signatureData)))
  /\ (forall signatureData fieldPositions,
        fieldPositions = [] \/ File.type originalFile <> "application/pdf" ->
        (Forall (fun text => encodes text = true) (summaryTexts localeNow signatureData) ->
         exists blob,
           generateSignedPDF load embedSignature localeNow encodes originalFile
             signatureData fieldPositions = inl blob)
        /\ forall blob,
             generateSignedPDF load embedSignature localeNow encodes originalFile
               signatureData fieldPositions = inl blob ->
             exists summary,
               signaturePage embedSignature localeNow encodes signatureData = Some summary
               /\ Blob.type blob = "application/pdf"
               /\ Blob.pages blob
                  = match decide (File.type originalFile = "application/pdf"),
                          load originalFile with
                    | left _, Some originalPages => summary :: originalPages
                    | _, _ => [summary]
                    end)
  /\ (forall st,
        let fields := getDocumentFields (App.documentsWithFields st) originalFile in
        fields <> [] ->
        List.filter isEmptyField fields = [] ->
        File.type originalFile <> "application/pdf" ->
        (Forall (fun text => encodes text = true)
           (summaryTexts localeNow (signatureDataOf fields)) ->
         exists blob filename,
           (handleDownloadDocument load embedSignature localeNow encodes st originalFile).2
           = [downloadBlob blob filename])
        /\ forall blob filename,
             downloadBlob blob filename
               ∈ (handleDownloadDocument load embedSignature localeNow encodes st
                    originalFile).2 ->
             exists summary,
               signaturePage embedSignature localeNow encodes (signatureDataOf fields)
               = Some summary
               /\ Blob.type blob = "application/pdf"
               /\ Blob.pages blob = [summary])
  /\ (forall st,
        getDocumentFields (App.documentsWithFields st) originalFile = [] ->
        handleDownloadDocument load embedSignature localeNow encodes st originalFile
        = (st, [alert "Please add and fill some fields before downloading."])).
Proof.
  assert (forall signatureData fieldPositions,
            fieldPositions = [] \/ File.type originalFile <> "application/pdf" ->
            (Forall (fun text => encodes text = true) (summaryTexts localeNow signatureData) ->
             exists blob,
               generateSignedPDF load embedSignature localeNow encodes originalFile
                 signatureData fieldPositions = inl blob)
            /\ forall blob,
                 generateSignedPDF load embedSignature localeNow encodes originalFile
                   signatureData fieldPositions = inl blob ->
                 exists summary,
                   signaturePage embedSignature localeNow encodes signatureData
                   = Some summary
                   /\ Blob.type blob = "application/pdf"
                   /\ Blob.pages blob
                      = match decide (File.type originalFile = "application/pdf"),
                              load originalFile with
                        | left _, Some originalPages => summary :: originalPages
                        | _, _ => [summary]
                        end) as Hgenerator.
  { intros signatureData fieldPositions Hfallback.
    rewrite (generateSignedPDF_fallback _ _ _ _ _ _ _ Hfallback). split.
    - intros Hall.
      destruct (signaturePage_Some embedSignature localeNow encodes signatureData Hall)
        as [summary ->].
      eauto.
    - intros blob Hgen.
      destruct (signaturePage _ _ _ _) as [summary |]; [| done].
      injection Hgen as <-. by exists summary. }
  split; [| split; [exact Hgenerator | split]].
  - intros signatureData summary Hsummary.
    destruct (signaturePage_summary _ _ _ _ _ Hsummary) as (Hw & Hh & rest & Hcontent).
    split; [done |]. split; [done |]. rewrite Hcontent. repeat split.
    + eexists. split; [by apply (list_elem_of_lookup_2 _ 2%nat) | reflexivity].
    + eexists. split; [by apply (list_elem_of_lookup_2 _ 3%nat) | reflexivity].
    + eexists. split; [by apply (list_elem_of_lookup_2 _ 4%nat) | reflexivity].
  - intros st fields Hne Hfilled Htype.
    destruct (Hgenerator (signatureDataOf fields) fields (or_intror Htype))
      as [Hruns Hshape].
    rewrite (handleDownloadDocument_generate _ _ _ _ _ _ Hne Hfilled). fold fields.
    cbn [snd]. split.
    + intros Hall. destruct (Hruns Hall) as [blob ->]. eauto.
    + intros blob filename Hin.
      destruct (generateSignedPDF _ _ _ _ _ _ _) as [signedPdfBlob | message];
        apply list_elem_of_singleton in Hin; [| discriminate Hin].
      injection Hin as <- _.
      destruct (Hshape _ eq_refl) as (summary & Hsummary & Hblobtype & Hpages).
      exists summary. rewrite Hpages. by rewrite decide_False by done.
  - intros st Hnone. unfold handleDownloadDocument. rewrite Hnone. done.
Qed.

(** ** No placement flow fills a field *)

Section Session.

Variable load : File.t -> option (list PDFPage.t).
Variable embedSignature : string -> option PDFImage.
Variable localeNow : string.
Variable encodes : string -> bool.

Lemma getDocumentFields_Forall (P : PlacedField.t -> Prop)
    (docs : gmap string (list PlacedField.t)) file :
  map_Forall (fun _ fields => Forall P fields) docs ->
  Forall P (getDocumentFields docs file).
Proof.
  intros Hall. unfold getDocumentFields.
  destruct (docs !! getDocumentKey file) as [fields |] eqn:Hget; [| done].
  by apply (Hall _ _ Hget).
Qed.

Lemma commitPreview_Unfilled st file r :
  Unfilled st ->
  Forall noValue (Preview.placedFields r.1) ->
  (forall fields, r.2 = Some fields -> Forall noValue fields) ->
  Unfilled (commitPreview st file r).
Proof.
  intros [Hdocs _] Hpst Hchanged. destruct r as [pst changed].
  split; simpl; [| done].
  destruct changed as [fields |]; [| done].
  unfold updateDocumentFields. apply map_Forall_insert_2; [| done].
  by apply Hchanged.
Qed.

Lemma handleFieldPlaced_noValue pst field :
  Forall noValue (Preview.placedFields pst) -> noValue field ->
  Forall noValue (Preview.placedFields (handleFieldPlaced pst field).1)
  /\ forall fields, (handleFieldPlaced pst field).2 = Some fields -> Forall noValue fields.
Proof.
  intros Hpst Hfield.
  assert (Forall noValue (Preview.placedFields pst ++ [field])) as Hnew.
  { apply Forall_app. split; [done | by constructor]. }
  split; [done |]. simpl. intros fields [= <-]. done.
Qed.

Lemma step_Unfilled st e : Unfilled st -> Unfilled (step load embedSignature localeNow encodes st e).
Proof.
  intros Hst. pose proof Hst as [Hdocs Hprev].
  destruct e as [file | | active_id active_data | now mounted event | now event
                 | fieldId | file | file]; cbn [step].
  - split; simpl; [done |]. by apply getDocumentFields_Forall.
  - by split.
  - destruct (App.preview st) as [[file pst] |] eqn:Hp; [| done].
    apply commitPreview_Unfilled; [done | | done]. simpl.
    unfold handleDragStart. destruct active_data as [d |]; [| done].
    by case_decide.
  - destruct (App.preview st) as [[file pst] |] eqn:Hp; [| done].
    unfold handleDragEnd.
    destruct (dragEndCommit _ _ _ _) as [newField |] eqn:Hcommit.
    + apply (commitField_shape (GestureCommit _ _ _ _)) in Hcommit as (_ & _ & _ & Hv).
      apply commitPreview_Unfilled; [done | |];
        by apply handleFieldPlaced_noValue.
    + by apply commitPreview_Unfilled.
  - destruct (App.preview st) as [[file pst] |] eqn:Hp; [| done].
    unfold handleNativeDrop.
    destruct (handleDrop _ _ _) as [newField |] eqn:Hcommit.
    + apply (commitField_shape (NativeCommit _ _ _)) in Hcommit as (_ & _ & _ & Hv).
      apply commitPreview_Unfilled; [done | |];
        by apply handleFieldPlaced_noValue.
    + by apply commitPreview_Unfilled.
  - destruct (App.preview st) as [[file pst] |] eqn:Hp; [| done].
    assert (Forall noValue
              (filter (fun field => PlacedField.id field <> fieldId)
                 (Preview.placedFields pst))) as Hnew.
    { apply Forall_forall. intros f Hf. apply list_elem_of_filter in Hf as [_ Hf].
      by apply (proj1 (Forall_forall _ _) Hprev). }
    apply commitPreview_Unfilled; [done | done |].
    simpl. intros fields [= <-]. done.
  - split; simpl; [| done]. unfold removeDocumentFields.
    by apply map_Forall_delete.
  - unfold handleDownloadDocument.
    destruct (decide _); [done |]. destruct (bool_decide _); [done |].
    destruct (generateSignedPDF _ _ _ _ _ _); by split.
Qed.

Lemma run_Unfilled events : Unfilled (run load embedSignature localeNow encodes events).
Proof.
  unfold run.
  assert (Unfilled App_init) as Hinit by (split; [apply map_Forall_empty | done]).
  revert Hinit. generalize App_init.
  induction events as [| e events IH]; intros st Hst; simpl; [done |].
  by apply IH, step_Unfilled.
Qed.

End Session.

Lemma filter_isEmptyField_noValue fields :
  Forall (fun f => PlacedField.value f = None) fields ->
  List.filter isEmptyField fields = fields.
Proof.
  induction 1 as [| f fields Hf _ IH]; simpl; [done |].
  unfold isEmptyField at 1. rewrite Hf. by rewrite IH.
Qed.

(** C10.  Both drop paths build their record without a value, and after
    any run of session events (opening and closing the preview, drag
    gestures, native drops, removals of fields and files, downloads) every
    field stored for a document is without value.  Hence every such field
    counts as empty at finalize time, and finalizing a document whose list
    is not empty ends in the alert that asks to fill in all fields. *)
Theorem placed_fields_never_filled
    (load : File.t -> option (list PDFPage.t))
    (embedSignature : string -> option PDFImage) (localeNow : string)
    (encodes : string -> bool)
    (events : list Event) (file : File.t) :
  let st := run load embedSignature localeNow encodes events in
  let fields := getDocumentFields (App.documentsWithFields st) file in
  (forall c f, commitField c = Some f -> PlacedField.value f = None)
  /\ Forall (fun f => PlacedField.value f = None) fields
  /\ List.filter isEmptyField fields = fields
  /\ (fields <> [] ->
      handleDownloadDocument load embedSignature localeNow encodes st file
      = (st, [alert "Please fill in all fields before downloading."])).
Proof.
  intros st fields.
  assert (Forall (fun f => PlacedField.value f = None) fields) as Hnone.
  { apply getDocumentFields_Forall. apply run_Unfilled. }
  pose proof (filter_isEmptyField_noValue fields Hnone) as Hfilter.
  split; [intros c f Hc; by apply commitField_shape in Hc as (_ & _ & _ & Hv) |].
  split; [done |]. split; [done |].
  intros Hne. unfold handleDownloadDocument. fold st. fold fields.
  rewrite Hfilter. rewrite decide_False by (by destruct fields).
  rewrite bool_decide_true; [done |]. destruct fields; [done | simpl; lia].
Qed.

(** ** Instances

    Each statement below is one of the theorems above at the sample inputs. *)

Lemma setFields_getFields_witness :
  let docs := updateDocumentFields notes_txt [blank_email] ∅ in
  getDocumentFields (updateDocumentFields contract_pdf [filled_name; blank_email] docs)
    contract_pdf = [filled_name; blank_email]
  /\ getDocumentFields (removeDocumentFields contract_pdf docs) contract_pdf = []
  /\ getDocumentFields docs contract_pdf = [].
Proof.
  intros docs.
  destruct (setFields_getFields docs contract_pdf contract_pdf [filled_name]
              [filled_name; blank_email] eq_refl) as (Hget & _ & Hremoved & Hnever).
  split; [exact Hget |]. split; [exact Hremoved |].
  apply Hnever. reflexivity.
Defined.

Lemma positioned_field_drawn_witness :
  exists blob page' x y w h,
    generatePDFWithPositionedFields sample_load sample_embed sample_encodes contract_pdf
      ada_signed [filled_name; signature_box] = Some blob
    /\ Blob.pages blob !! 1%nat = Some page'
    /\ drawImage (Png (SignatureData.signature ada_signed)) x y w h
         ∈ PDFPage.content page'
    /\ (x == 204)%Q /\ (y == 346)%Q /\ (w == 120)%Q /\ (h == 40)%Q.
Proof.
  destruct (positioned_field_drawn sample_load sample_embed sample_encodes contract_pdf
              ada_signed [filled_name; signature_box]
              [letter_page; letter_page; letter_page] signature_box)
    as [Hruns Hdrawn].
  - reflexivity.
  - apply list_elem_of_further, list_elem_of_here.
  - simpl. lia.
  - destruct Hruns as [blob Hgen].
    { intros f Hf _. apply elem_of_cons in Hf as [-> | Hf]; [reflexivity |].
      apply list_elem_of_singleton in Hf as ->. reflexivity. }
    destruct (Hdrawn blob Hgen) as (page & page' & op & Hpage & Hpage' & Hin & Hop & _).
    injection Hpage as <-. cbv in Hop. rewrite Hop in Hin.
    eexists blob, page', _, _, _, _.
    split; [exact Hgen |]. split; [exact Hpage' |]. split; [exact Hin |].
    repeat split; reflexivity.
Defined.


Lemma out_of_range_fields_skipped_witness :
  exists blob,
    generatePDFWithPositionedFields sample_load sample_embed sample_encodes contract_pdf
      ada [filled_name; date_on_page5] = Some blob
    /\ length (Blob.pages blob) = 3%nat
    /\ generatePDFWithPositionedFields sample_load sample_embed sample_encodes
         contract_pdf ada [filled_name] = Some blob.
Proof.
  destruct (out_of_range_fields_skipped sample_load sample_embed sample_encodes
              contract_pdf ada [filled_name; date_on_page5]
              [letter_page; letter_page; letter_page] eq_refl)
    as (_ & _ & Hsame & Hruns & Hshape).
  destruct Hruns as [blob Hgen].
  { intros f Hf Hrange. apply elem_of_cons in Hf as [-> | Hf]; [reflexivity |].
    apply list_elem_of_singleton in Hf as ->. simpl in Hrange. lia. }
  exists blob. split; [exact Hgen |]. split; [apply (Hshape blob Hgen) |].
  rewrite <- Hgen, <- Hsame. reflexivity.
Defined.

Lemma commit_ids_distinct_witness :
  exists f1 f2,
    commitField (NativeCommit 1 1730000000000 drop_near_origin) = Some f1
    /\ commitField (NativeCommit 1 1730000000000 drop_signature) = Some f2
    /\ PlacedField.id f1 <> PlacedField.id f2.
Proof.
  eexists _, _. split; [reflexivity |]. split; [reflexivity |].
  intros Hid.
  apply (commit_ids_distinct (NativeCommit 1 1730000000000 drop_near_origin)
           (NativeCommit 1 1730000000000 drop_signature) _ _ eq_refl eq_refl)
    in Hid as [Htype _].
  discriminate Htype.
Defined.

Lemma fallback_summary_page_witness :
  exists summary blob filename,
    signaturePage sample_embed sample_locale sample_encodes
      (signatureDataOf [filled_name]) = Some summary
    /\ (handleDownloadDocument sample_load sample_embed sample_locale sample_encodes
          (app_with notes_txt [filled_name]) notes_txt).2
       = [downloadBlob blob filename]
    /\ Blob.pages blob = [summary]
    /\ PDFPage.width summary = 612%Q.
Proof.
  destruct (fallback_summary_page sample_load sample_embed sample_locale sample_encodes
              notes_txt) as (Hsummary & _ & Hfinalize & _).
  destruct (Hfinalize (app_with notes_txt [filled_name])) as [Hruns Hshape].
  - discriminate.
  - reflexivity.
  - discriminate.
  - destruct Hruns as (blob & filename & Heffects); [repeat constructor |].
    destruct (Hshape blob filename) as (summary & Hpage & _ & Hpages).
    { rewrite Heffects. apply list_elem_of_here. }
    exists summary, blob, filename.
    split; [exact Hpage |]. split; [exact Heffects |]. split; [exact Hpages |].
    apply (Hsummary _ _ Hpage).
Defined.

Lemma finalize_aborts_on_unfilled_witness :
  let st := app_with contract_pdf [filled_name; blank_email] in
  handleDownloadDocument sample_load sample_embed sample_locale sample_encodes st
    contract_pdf
  = (st, [alert "Please fill in all fields before downloading."]).
Proof.
  intros st.
  destruct (finalize_aborts_on_unfilled sample_load sample_embed sample_locale
              sample_encodes st contract_pdf) as (message & Hresult & Hmessage).
  - right. exists blank_email. split.
    + apply list_elem_of_further, list_elem_of_here.
    + right. exists "   ". split; reflexivity.
  - rewrite Hresult, Hmessage. reflexivity.
Defined.

Lemma signed_filename_witness :
  let st := app_with notes_txt [filled_name] in
  exists blob,
    (handleDownloadDocument sample_load sample_embed sample_locale sample_encodes st
       notes_txt).2
    = [downloadBlob blob "notes_signed.pdf"]
    /\ Blob.type blob = "application/pdf".
Proof.
  intros st.
  assert (exists blob,
            (handleDownloadDocument sample_load sample_embed sample_locale
               sample_encodes st notes_txt).2
            = [downloadBlob blob ("notes" +:+ "_signed.pdf")]) as [blob Hrun].
  { eexists. vm_compute. reflexivity. }
  exists blob.
  destruct (signed_filename sample_load sample_embed sample_locale sample_encodes st
              notes_txt blob ("notes" +:+ "_signed.pdf")) as (Heffects & Htype & _ & Hstem).
  - rewrite Hrun. apply list_elem_of_here.
  - split; [exact Heffects | exact Htype].
Defined.

Lemma placed_fields_never_filled_witness :
  let events :=
    [OpenPreview contract_pdf; DragEnd 1730000000000 true (dragEnd_name 10 20)] in
  let st := run sample_load sample_embed sample_locale sample_encodes events in
  length (getDocumentFields (App.documentsWithFields st) contract_pdf) = 1%nat
  /\ handleDownloadDocument sample_load sample_embed sample_locale sample_encodes st
       contract_pdf
     = (st, [alert "Please fill in all fields before downloading."]).
Proof.
  intros events st.
  destruct (placed_fields_never_filled sample_load sample_embed sample_locale
              sample_encodes events contract_pdf) as (_ & _ & _ & Hfinalize).
  split; [reflexivity |].
  apply Hfinalize. intros Hnil. discriminate Hnil.
Defined.

(** * Further properties *)

(** ** Document identity *)

Lemma list_ascii_of_string_app s1 s2 :
  list_ascii_of_string (s1 +:+ s2)
  = list_ascii_of_string s1 ++ list_ascii_of_string s2.
Proof. induction s1 as [| c s1 IH]; simpl; [done | by rewrite IH]. Qed.

Lemma list_ascii_of_string_inj s1 s2 :
  list_ascii_of_string s1 = list_ascii_of_string s2 -> s1 = s2.
Proof.
  intros H. rewrite <- (string_of_list_ascii_of_string s1),
    <- (string_of_list_ascii_of_string s2). by rewrite H.
Qed.

Lemma pretty_N_char_noDash x : noDash (pretty_N_char x).
Proof. unfold noDash, pretty_N_char. by repeat case_match. Qed.

Lemma pretty_N_go_noDash x s :
  Forall noDash (list_ascii_of_string s) ->
  Forall noDash (list_ascii_of_string (pretty_N_go x s)).
Proof.
  revert s. induction (N.lt_wf_0 x) as [x _ IH]; intros s Hs.
  assert (x = 0 \/ 0 < x)%N as [-> | Hpos] by lia.
  - by rewrite pretty_N_go_0.
  - rewrite pretty_N_go_step by done. apply IH; [by apply N.div_lt |].
    simpl. constructor; [apply pretty_N_char_noDash | done].
Qed.

Lemma pretty_N_go_length x s :
  (String.length s <= String.length (pretty_N_go x s))%nat.
Proof.
  revert s. induction (N.lt_wf_0 x) as [x _ IH]; intros s.
  assert (x = 0 \/ 0 < x)%N as [-> | Hpos] by lia.
  - by rewrite pretty_N_go_0.
  - rewrite pretty_N_go_step by done.
    etrans; [| apply IH; by apply N.div_lt]. simpl. lia.
Qed.

(** The decimal form of a natural number: digits only, at least one. *)
Lemma pretty_N_digits (n : N) :
  Forall noDash (list_ascii_of_string (pretty n))
  /\ list_ascii_of_string (pretty n) <> [].
Proof.
  unfold pretty, pretty_N. case_decide as Hn.
  - split; [| done]. repeat constructor. by compute.
  - split; [by apply pretty_N_go_noDash |].
    rewrite pretty_N_go_step by lia.
    pose proof (pretty_N_go_length (n `div` 10)
                  (String (pretty_N_char (n `mod` 10)) "")) as Hlen.
    destruct (pretty_N_go _ _); simpl in *; [lia | done].
Qed.

(** The decimal form of an integer: digits, or a dash and digits. *)
Lemma pretty_Z_digits (z : Z) :
  exists digits,
    Forall noDash digits /\ digits <> []
    /\ (list_ascii_of_string (pretty z) = digits
        \/ list_ascii_of_string (pretty z) = "-"%char :: digits).
Proof.
  destruct z as [| p | p]; unfold pretty, pretty_Z.
  - exists ["0"%char]. split; [repeat constructor; by compute | by split; [| left]].
  - destruct (pretty_N_digits (N.pos p)) as [Hd Hne].
    exists (list_ascii_of_string (pretty (N.pos p))). by split; [| split; [| left]].
  - destruct (pretty_N_digits (N.pos p)) as [Hd Hne].
    exists (list_ascii_of_string (pretty (N.pos p))). split; [done |]. split; [done |].
    right. by rewrite list_ascii_of_string_app.
Qed.

(** A dash-free prefix before a dash is determined by the whole. *)
Lemma dash_prefix_unique (d1 d2 r1 r2 : list ascii) :
  Forall noDash d1 -> Forall noDash d2 ->
  d1 ++ "-"%char :: r1 = d2 ++ "-"%char :: r2 -> d1 = d2 /\ r1 = r2.
Proof.
  intros H1. revert d2. induction H1 as [| c d1 Hc _ IH]; intros d2 H2 Heq.
  - destruct H2 as [| c' d2 Hc' _]; simpl in Heq; [by inversion Heq |].
    inversion Heq; subst. by destruct Hc'.
  - destruct H2 as [| c' d2 Hc' H2]; simpl in Heq.
    + inversion Heq; subst. by destruct Hc.
    + inversion Heq; subst. destruct (IH d2 H2) as [-> ->]; done.
Qed.

(** A dash-free suffix after a dash is determined by the whole. *)
Lemma dash_suffix_unique (a1 a2 d1 d2 : list ascii) :
  Forall noDash d1 -> Forall noDash d2 ->
  a1 ++ "-"%char :: d1 = a2 ++ "-"%char :: d2 -> a1 = a2 /\ d1 = d2.
Proof.
  intros H1 H2 Heq. apply (f_equal reverse) in Heq.
  rewrite !reverse_app, !reverse_cons, <- !app_assoc in Heq. simpl in Heq.
  apply dash_prefix_unique in Heq as [Hd Ha]; [| by apply Forall_reverse..].
  split; by apply (inj reverse).
Qed.

Lemma getDocumentKey_chars file :
  list_ascii_of_string (getDocumentKey file)
  = list_ascii_of_string (File.name file)
    ++ "-"%char :: list_ascii_of_string (pretty (File.size file))
    ++ "-"%char :: list_ascii_of_string (pretty (File.lastModified file)).
Proof.
  unfold getDocumentKey. by rewrite !list_ascii_of_string_app.
Qed.

Lemma key_chars_nonneg (n s z : list ascii) :
  n ++ "-"%char :: s ++ "-"%char :: z = (n ++ "-"%char :: s) ++ "-"%char :: z.
Proof. by rewrite <- app_assoc. Qed.

Lemma key_chars_neg (n s z : list ascii) :
  n ++ "-"%char :: s ++ "-"%char :: "-"%char :: z
  = ((n ++ "-"%char :: s) ++ ["-"%char]) ++ "-"%char :: z.
Proof. by rewrite <- !app_assoc. Qed.

Lemma digits_end_noDash (a b s : list ascii) :
  Forall noDash s -> s <> [] -> a ++ "-"%char :: s <> b ++ ["-"%char].
Proof.
  intros Hs Hne Heq. destruct (exists_last Hne) as (s' & c & ->).
  rewrite app_comm_cons, app_assoc in Heq.
  apply app_inj_tail in Heq as [_ ->].
  apply Forall_app in Hs as [_ Hc]. by inversion Hc.
Qed.

(** X1.  Two files have the same document key exactly when they agree on
    name, size and last-modified time: the dashes that join the three parts
    never make two different triples collide, and the MIME type plays no
    part in the identity. *)
Theorem getDocumentKey_identity (file1 file2 : File.t) :
  getDocumentKey file1 = getDocumentKey file2
  <-> File.name file1 = File.name file2
      /\ File.size file1 = File.size file2
      /\ File.lastModified file1 = File.lastModified file2.
Proof.
  split.
  - intros Hkey. apply (f_equal list_ascii_of_string) in Hkey.
    rewrite !getDocumentKey_chars in Hkey.
    destruct (pretty_N_digits (File.size file1)) as [Hs1 Hn1].
    destruct (pretty_N_digits (File.size file2)) as [Hs2 Hn2].
    destruct (pretty_Z_digits (File.lastModified file1)) as (z1 & Hz1 & Hz1ne & Hm1).
    destruct (pretty_Z_digits (File.lastModified file2)) as (z2 & Hz2 & Hz2ne & Hm2).
    assert (list_ascii_of_string (File.name file1) = list_ascii_of_string (File.name file2)
            /\ list_ascii_of_string (pretty (File.size file1))
               = list_ascii_of_string (pretty (File.size file2))
            /\ list_ascii_of_string (pretty (File.lastModified file1))
               = list_ascii_of_string (pretty (File.lastModified file2)))
      as (Hn & Hs & Hm).
    { destruct Hm1 as [Hm1 | Hm1], Hm2 as [Hm2 | Hm2]; rewrite Hm1, Hm2 in Hkey |- *.
      - rewrite !key_chars_nonneg in Hkey.
        apply dash_suffix_unique in Hkey as [Hrest ->]; [| done..].
        apply dash_suffix_unique in Hrest as [-> ->]; done.
      - exfalso. rewrite key_chars_neg, key_chars_nonneg in Hkey.
        apply dash_suffix_unique in Hkey as [Hrest _]; [| done..].
        by apply digits_end_noDash in Hrest.
      - exfalso. rewrite key_chars_neg, key_chars_nonneg in Hkey.
        apply dash_suffix_unique in Hkey as [Hrest _]; [| done..].
        symmetry in Hrest. by apply digits_end_noDash in Hrest.
      - rewrite !key_chars_neg in Hkey.
        apply dash_suffix_unique in Hkey as [Hrest ->]; [| done..].
        apply app_inj_tail in Hrest as [Hrest _].
        apply dash_suffix_unique in Hrest as [-> ->]; done. }
    apply list_ascii_of_string_inj in Hn, Hs, Hm.
    split; [done |]. split; by apply (inj pretty).
  - intros (Hn & Hs & Hm). unfold getDocumentKey. by rewrite Hn, Hs, Hm.
Qed.

(** ** The store: other documents, counts, removal *)

(** X2.  Writing or removing the field list of one document leaves the
    list, the count and the [hasFields] flag of every document with another
    key as they were. *)
Theorem store_frame (docs : gmap string (list PlacedField.t))
    (file other : File.t) (fields : list PlacedField.t) :
  getDocumentKey other <> getDocumentKey file ->
  getDocumentFields (updateDocumentFields file fields docs) other
  = getDocumentFields docs other
  /\ getDocumentFields (removeDocumentFields file docs) other
     = getDocumentFields docs other
  /\ hasFields (updateDocumentFields file fields docs) other = hasFields docs other
  /\ hasFields (removeDocumentFields file docs) other = hasFields docs other
  /\ getFieldCount (updateDocumentFields file fields docs) other
     = getFieldCount docs other
  /\ getFieldCount (removeDocumentFields file docs) other = getFieldCount docs other.
Proof.
  intros Hne.
  assert (getDocumentFields (updateDocumentFields file fields docs) other
          = getDocumentFields docs other) as Hupdate
    by by apply getDocumentFields_update_ne.
  assert (getDocumentFields (removeDocumentFields file docs) other
          = getDocumentFields docs other) as Hremove.
  { unfold getDocumentFields, removeDocumentFields. by rewrite lookup_delete_ne. }
  unfold hasFields, getFieldCount. by rewrite Hupdate, Hremove.
Qed.

(** X3.  After a write the count is the length of the written list and
    [hasFields] tells whether it is non-empty; after a removal the count is
    0 and [hasFields] is false.  Removing twice is removing once, a removal
    cancels an earlier write, a write cancels an earlier removal, and
    storing the empty list reads like having no entry. *)
Theorem store_laws (docs : gmap string (list PlacedField.t))
    (file : File.t) (fields : list PlacedField.t) :
  getFieldCount (updateDocumentFields file fields docs) file = length fields
  /\ hasFields (updateDocumentFields file fields docs) file
     = negb (bool_decide (fields = []))
  /\ getFieldCount (removeDocumentFields file docs) file = 0%nat
  /\ hasFields (removeDocumentFields file docs) file = false
  /\ removeDocumentFields file (removeDocumentFields file docs)
     = removeDocumentFields file docs
  /\ removeDocumentFields file (updateDocumentFields file fields docs)
     = removeDocumentFields file docs
  /\ updateDocumentFields file fields (removeDocumentFields file docs)
     = updateDocumentFields file fields docs
  /\ getDocumentFields (updateDocumentFields file [] docs) file
     = getDocumentFields (removeDocumentFields file docs) file.
Proof.
  assert (forall l, getDocumentFields (updateDocumentFields file l docs) file = l)
    as Hupdate by (intros l; by apply getDocumentFields_update).
  assert (getDocumentFields (removeDocumentFields file docs) file = []) as Hremove.
  { apply getDocumentFields_absent. apply lookup_delete_eq. }
  unfold hasFields, getFieldCount. rewrite !Hupdate, Hremove.
  split; [done |]. split; [by destruct fields |]. split; [done |]. split; [done |].
  unfold removeDocumentFields, updateDocumentFields.
  split; [by rewrite delete_delete_eq |].
  split; [by rewrite delete_insert_eq |].
  split; [by rewrite insert_delete_eq | done].
Qed.

(** ** Removing and placing in the preview *)

Lemma filter_length_split {A} (P : A -> Prop) `{!forall a, Decision (P a)} (l : list A) :
  (length (filter P l) + length (filter (fun a => ~ P a) l) = length l)%nat.
Proof.
  induction l as [| a l IH]; [done |].
  rewrite !filter_cons. destruct (decide (P a)) as [Hp | Hp].
  - rewrite decide_False by tauto. simpl. lia.
  - rewrite decide_True by done. simpl. lia.
Qed.

Lemma filter_none {A} (P : A -> Prop) `{!forall a, Decision (P a)} (l : list A) :
  Forall (fun a => ~ P a) l -> filter P l = [].
Proof.
  induction 1 as [| a l Ha _ IH]; [done |].
  by rewrite filter_cons, decide_False.
Qed.

Lemma filter_all {A} (P : A -> Prop) `{!forall a, Decision (P a)} (l : list A) :
  Forall P l -> filter P l = l.
Proof.
  induction 1 as [| a l Ha _ IH]; [done |].
  rewrite filter_cons, decide_True by done. by f_equal.
Qed.

Lemma filter_id_NoDup (fieldId : string) (l : list PlacedField.t) :
  NoDup (map PlacedField.id l) ->
  (exists f, f ∈ l /\ PlacedField.id f = fieldId) ->
  length (filter (fun f => PlacedField.id f = fieldId) l) = 1%nat.
Proof.
  induction l as [| a l IH]; simpl; intros Hnd (f & Hin & Hid).
  - by apply elem_of_nil in Hin.
  - apply NoDup_cons in Hnd as [Ha Hnd]. rewrite filter_cons.
    destruct (decide (PlacedField.id a = fieldId)) as [Heq | Hne].
    + rewrite filter_none; [done |]. apply Forall_forall. intros g Hg Hgid.
      apply Ha. rewrite Heq, <- Hgid.
      by apply (list_elem_of_fmap_2 PlacedField.id).
    + apply IH; [done |]. exists f. split; [| done].
      apply elem_of_cons in Hin as [-> | Hin]; [done | done].
Qed.

(** X4.  Removing by id hands the new list to [onFieldsChanged], keeps the
    page, leaves no field with that id, keeps every other field in its
    order, and drops as many fields as carried the id: none when the id is
    absent (the list is unchanged), exactly one when the ids of the list
    are pairwise distinct and the id is present. *)
Theorem handleFieldRemoved_spec (pst : Preview.t) (fieldId : string) :
  let old := Preview.placedFields pst in
  let result := handleFieldRemoved pst fieldId in
  let newFields := Preview.placedFields result.1 in
  result.2 = Some newFields
  /\ Preview.currentPage result.1 = Preview.currentPage pst
  /\ Forall (fun f => PlacedField.id f <> fieldId) newFields
  /\ sublist newFields old
  /\ (forall f, f ∈ old -> PlacedField.id f <> fieldId -> f ∈ newFields)
  /\ (length newFields
      + length (filter (fun f => PlacedField.id f = fieldId) old) = length old)%nat
  /\ (Forall (fun f => PlacedField.id f <> fieldId) old -> newFields = old)
  /\ (NoDup (map PlacedField.id old) ->
      (exists f, f ∈ old /\ PlacedField.id f = fieldId) ->
      S (length newFields) = length old).
Proof.
  intros old result newFields. subst result newFields. simpl. fold old.
  split; [done |]. split; [done |].
  split; [apply Forall_forall; intros f Hf; by apply list_elem_of_filter in Hf as [? _] |].
  split; [apply sublist_filter |].
  split; [intros f Hin Hne; by apply list_elem_of_filter |].
  pose proof (filter_length_split (fun f => PlacedField.id f = fieldId) old) as Hlen.
  split; [lia |].
  split.
  - apply filter_all.
  - intros Hnd Hex. rewrite (filter_id_NoDup fieldId old Hnd Hex) in Hlen. lia.
Qed.

(** X5.  A drag end always clears the active token and keeps the page.
    Either nothing else changes and [onFieldsChanged] is not called, or all
    guards held (the pointer is over the drop zone, the token is a field,
    a delta is present, the drop zone is mounted) and exactly one record,
    of the dragged kind and on the current page, is appended and the whole
    new list is handed on.  A drop outside the drop zone never places. *)
Theorem handleDragEnd_spec (pst : Preview.t) (now : Z) (dropZoneMounted : bool)
    (event : DragEndEvent.t) :
  let result := handleDragEnd pst now dropZoneMounted event in
  Preview.activeField result.1 = None
  /\ Preview.currentPage result.1 = Preview.currentPage pst
  /\ (Preview.placedFields result.1 = Preview.placedFields pst /\ result.2 = None
      \/ exists d delta,
           DragEndEvent.over event = Some "document-drop-zone"
           /\ DragEndEvent.active_data event = Some d
           /\ DragData.type d = "field"
           /\ DragEndEvent.delta event = Some delta
           /\ dropZoneMounted = true
           /\ let f := dragEndField (Preview.currentPage pst) now
                         (DragData.fieldType d) delta in
              Preview.placedFields result.1 = Preview.placedFields pst ++ [f]
              /\ result.2 = Some (Preview.placedFields pst ++ [f])
              /\ PlacedField.page f = Preview.currentPage pst
              /\ PlacedField.type f = DragData.fieldType d)
  /\ (DragEndEvent.over event <> Some "document-drop-zone" ->
      Preview.placedFields result.1 = Preview.placedFields pst /\ result.2 = None).
Proof.
  intros result. subst result. unfold handleDragEnd, dragEndCommit.
  destruct (DragEndEvent.over event) as [over_id |];
    destruct (DragEndEvent.active_data event) as [d |];
    repeat case_decide;
    destruct (DragEndEvent.delta event) as [delta |];
    destruct dropZoneMounted; simpl;
    (split; [done |]); (split; [done |]);
    (split; [first [by left | right; subst; by eexists _, _] | intros Hne; first [done | exfalso; apply Hne; congruence]]).
Qed.

(** ** What a session keeps *)

Lemma commitField_Placed c f :
  commitField c = Some f ->
  match c with
  | NativeCommit currentPage _ _ => PlacedField.page f = currentPage
  | GestureCommit currentPage _ _ _ => PlacedField.page f = currentPage
  end.
Proof.
  destruct c as [currentPage now event | currentPage now mounted event]; simpl; intros H.
  - by apply handleDrop_Some in H as (k & _ & _ & ->).
  - by apply dragEndCommit_Some in H as (d & delta & _ & _ & ->).
Qed.

Lemma commitField_first_page c f :
  commitField c = Some f ->
  match c with
  | NativeCommit currentPage _ _ => currentPage = 1%Z
  | GestureCommit currentPage _ _ _ => currentPage = 1%Z
  end ->
  Placed f.
Proof.
  intros Hc Hpage. pose proof (commitField_Placed c f Hc) as Hp.
  destruct (commitField_shape c f Hc) as (Hid & Hw & Hh & _).
  repeat split; [by destruct c; subst | done | done | by eexists].
Qed.

Section SessionInvariant.

Variable load : File.t -> option (list PDFPage.t).
Variable embedSignature : string -> option PDFImage.
Variable localeNow : string.
Variable encodes : string -> bool.

Lemma commitPreview_Session st file r :
  Session st ->
  Forall Placed (Preview.placedFields r.1) ->
  Preview.currentPage r.1 = 1%Z ->
  (forall fields, r.2 = Some fields -> Forall Placed fields) ->
  Session (commitPreview st file r).
Proof.
  intros (Hdocs & Hgen & _) Hpst Hpage Hchanged. destruct r as [pst changed].
  split; [| split; [done | done]]. simpl.
  destruct changed as [fields |]; [| done].
  unfold updateDocumentFields. apply map_Forall_insert_2; [| done].
  by apply Hchanged.
Qed.

Lemma handleFieldPlaced_Placed pst field :
  Forall Placed (Preview.placedFields pst) -> Placed field ->
  Forall Placed (Preview.placedFields (handleFieldPlaced pst field).1)
  /\ forall fields, (handleFieldPlaced pst field).2 = Some fields -> Forall Placed fields.
Proof.
  intros Hpst Hfield.
  assert (Forall Placed (Preview.placedFields pst ++ [field])) as Hnew.
  { apply Forall_app. split; [done | by constructor]. }
  split; [done |]. simpl. intros fields [= <-]. done.
Qed.

Lemma step_Session st e : Session st -> Session (step load embedSignature localeNow encodes st e).
Proof.
  intros Hst. pose proof Hst as (Hdocs & Hgen & Hprev).
  destruct e as [file | | active_id active_data | now mounted event | now event
                 | fieldId | file | file]; cbn [step].
  - split; [done |]. split; [done |]. simpl.
    split; [by apply getDocumentFields_Forall | done].
  - by split.
  - destruct (App.preview st) as [[file pst] |] eqn:Hp; [| done].
    destruct Hprev as [Hfields Hpage].
    apply commitPreview_Session; [done | | | done]; simpl;
      unfold handleDragStart; destruct active_data as [d |]; try done;
      by case_decide.
  - destruct (App.preview st) as [[file pst] |] eqn:Hp; [| done].
    destruct Hprev as [Hfields Hpage]. unfold handleDragEnd.
    destruct (dragEndCommit _ _ _ _) as [newField |] eqn:Hcommit.
    + apply (commitField_first_page (GestureCommit _ _ _ _)) in Hcommit; [| done].
      apply commitPreview_Session; [done | | done |];
        by apply handleFieldPlaced_Placed.
    + by apply commitPreview_Session.
  - destruct (App.preview st) as [[file pst] |] eqn:Hp; [| done].
    destruct Hprev as [Hfields Hpage]. unfold handleNativeDrop.
    destruct (handleDrop _ _ _) as [newField |] eqn:Hcommit.
    + apply (commitField_first_page (NativeCommit _ _ _)) in Hcommit; [| done].
      apply commitPreview_Session; [done | | done |];
        by apply handleFieldPlaced_Placed.
    + by apply commitPreview_Session.
  - destruct (App.preview st) as [[file pst] |] eqn:Hp; [| done].
    destruct Hprev as [Hfields Hpage].
    assert (Forall Placed
              (filter (fun field => PlacedField.id field <> fieldId)
                 (Preview.placedFields pst))) as Hnew.
    { apply Forall_forall. intros f Hf. apply list_elem_of_filter in Hf as [_ Hf].
      by apply (proj1 (Forall_forall _ _) Hfields). }
    apply commitPreview_Session; [done | done | done |].
    simpl. intros fields [= <-]. done.
  - split; [| done]. simpl. unfold removeDocumentFields.
    by apply map_Forall_delete.
  - unfold handleDownloadDocument.
    destruct (decide _); [done |]. destruct (bool_decide _); [done |].
    destruct (generateSignedPDF _ _ _ _ _ _); by split.
Qed.

Lemma run_Session events : Session (run load embedSignature localeNow encodes events).
Proof.
  unfold run.
  assert (Session App_init) as Hinit by (split; [apply map_Forall_empty | done]).
  revert Hinit. generalize App_init.
  induction events as [| e events IH]; intros st Hst; simpl; [done |].
  by apply IH, step_Session.
Qed.

End SessionInvariant.

(** X6.  Whatever the run of session events, every field stored for a
    document sits on page 1 (no handler changes the current page), has the
    default geometry of its kind and an id built from its kind and a
    timestamp; no generation is in progress and an open preview shows
    page 1. *)
Theorem session_fields_first_page
    (load : File.t -> option (list PDFPage.t))
    (embedSignature : string -> option PDFImage) (localeNow : string)
    (encodes : string -> bool)
    (events : list Event) (file : File.t) :
  let st := run load embedSignature localeNow encodes events in
  Forall (fun f =>
            PlacedField.page f = 1%Z
            /\ PlacedField.width f = defaultWidth (PlacedField.type f)
            /\ PlacedField.height f = defaultHeight (PlacedField.type f)
            /\ exists now, PlacedField.id f = placedId (PlacedField.type f) now)
    (getDocumentFields (App.documentsWithFields st) file)
  /\ App.isGeneratingPDF st = false
  /\ match App.preview st with
     | Some (_, pst) => Preview.currentPage pst = 1%Z
     | None => True
     end.
Proof.
  intros st. destruct (run_Session load embedSignature localeNow encodes events)
    as (Hdocs & Hgen & Hprev).
  split; [by apply (getDocumentFields_Forall Placed) |]. split; [done |].
  fold st in Hprev. destruct (App.preview st) as [[? pst] |]; [by destruct Hprev | done].
Qed.

(** X7.  In every state a session can reach, the finalize handler leaves
    the state as it is and shows exactly one alert: the fill-in alert when
    the document has fields, the add-fields alert when it has none.  No run
    of placement events ends in a download. *)
Theorem session_never_downloads
    (load : File.t -> option (list PDFPage.t))
    (embedSignature : string -> option PDFImage) (localeNow : string)
    (encodes : string -> bool)
    (events : list Event) (file : File.t) :
  let st := run load embedSignature localeNow encodes events in
  step load embedSignature localeNow encodes st (Download file) = st
  /\ exists message,
       handleDownloadDocument load embedSignature localeNow encodes st file
       = (st, [alert message])
       /\ message
          = if hasFields (App.documentsWithFields st) file
            then "Please fill in all fields before downloading."
            else "Please add and fill some fields before downloading.".
Proof.
  intros st.
  assert (Forall noValue (getDocumentFields (App.documentsWithFields st) file)) as Hnone.
  { apply getDocumentFields_Forall. apply run_Unfilled. }
  pose proof (filter_isEmptyField_noValue _ Hnone) as Hfilter.
  assert (exists message,
            handleDownloadDocument load embedSignature localeNow encodes st file
            = (st, [alert message])
            /\ message
               = if hasFields (App.documentsWithFields st) file
                 then "Please fill in all fields before downloading."
                 else "Please add and fill some fields before downloading.")
    as (message & Hresult & Hmessage).
  { unfold handleDownloadDocument, hasFields. rewrite Hfilter.
    destruct (getDocumentFields (App.documentsWithFields st) file) as [| f fields].
    - eexists. by split.
    - rewrite decide_False by done. rewrite !bool_decide_true by (simpl; lia).
      eexists. by split. }
  split; [by cbn [step]; rewrite Hresult | by exists message].
Qed.

(** ** The overlay *)

(** X8.  A field committed by a native drop is shown by the overlay on
    the current page, and its rectangle starts where the drag indicator for
    the same pointer position starts.  The two rectangles are the same for
    every kind but [signature], whose box is 120 x 40 under a 100 x 30
    indicator. *)
Theorem native_drop_matches_indicator (placedFields : list PlacedField.t)
    (currentPage now : Z) (event : DropEvent.t) (f : PlacedField.t) :
  handleDrop currentPage now event = Some f ->
  f ∈ currentPageFields (placedFields ++ [f]) currentPage
  /\ exists box,
       dragIndicator (handleDragOver event) true = Some box
       /\ Box.left box = Box.left (fieldBox f)
       /\ Box.top box = Box.top (fieldBox f)
       /\ (PlacedField.type f <> signature -> box = fieldBox f)
       /\ (PlacedField.type f = signature ->
           Box.width box = 100%Q /\ Box.height box = 30%Q
           /\ Box.width (fieldBox f) = 120%Q /\ Box.height (fieldBox f) = 40%Q).
Proof.
  intros H. apply handleDrop_Some in H as (k & _ & _ & ->).
  split.
  - unfold currentPageFields. apply list_elem_of_filter. split; [done |].
    apply elem_of_app. right. apply list_elem_of_here.
  - eexists. split; [reflexivity |]. simpl.
    split; [done |]. split; [done |].
    unfold fieldBox, defaultWidth, defaultHeight. simpl.
    split; intros Hk.
    + by rewrite !decide_False.
    + by rewrite !decide_True.
Qed.

(** ** The transform *)

(** X9.  For a field inside the 600 x 800 preview on a page of
    non-negative size, the drawn x lies within the page width and the drawn
    y between [-d] and [pageHeight - d], where [d] is 20, or 50 for a
    signature image: the bottom edge of the preview maps to y = -d, below
    the page, the top edge to [pageHeight - d].  The y axis is flipped
    (a field further down is drawn lower) and the x axis is not. *)
Theorem transform_bounds (signatureData : SignatureData.t)
    (signatureImage : option PDFImage) (pageWidth pageHeight : Q)
    (f g : PlacedField.t) :
  (0 <= pageWidth)%Q -> (0 <= pageHeight)%Q ->
  (0 <= PlacedField.x f <= 600)%Q -> (0 <= PlacedField.y f <= 800)%Q ->
  let op := fieldOp signatureData signatureImage pageWidth pageHeight f in
  let op' := fieldOp signatureData signatureImage pageWidth pageHeight g in
  let drop := match PlacedField.type f, signatureImage with
              | signature, Some _ => 50%Q
              | _, _ => 20%Q
              end in
  (0 <= DrawOp_x op <= pageWidth)%Q
  /\ (- drop <= DrawOp_y op <= pageHeight - drop)%Q
  /\ (PlacedField.y f == 800 -> DrawOp_y op == - drop)%Q
  /\ (PlacedField.y f == 0 -> DrawOp_y op == pageHeight - drop)%Q
  /\ (PlacedField.type g = PlacedField.type f ->
      (PlacedField.y f <= PlacedField.y g)%Q -> (DrawOp_y op' <= DrawOp_y op)%Q)
  /\ ((PlacedField.x f <= PlacedField.x g)%Q -> (DrawOp_x op <= DrawOp_x op')%Q).
Proof.
  intros Hw Hh [Hx0 Hx1] [Hy0 Hy1] op op' drop. subst op op' drop.
  rewrite !fieldOp_position.
  assert (forall a b : Q, (0 <= a)%Q -> (0 <= b)%Q -> (0 <= a * b)%Q) as Hmul
    by (intros; by apply Qmult_le_0_compat).
  assert (forall a b, (a <= b)%Q -> (a / 600 * pageWidth <= b / 600 * pageWidth)%Q) as HmonoX.
  { intros a b Hab. apply Qmult_le_compat_r; [| done].
    apply Qmult_le_compat_r; [done | by compute]. }
  assert (forall a b, (a <= b)%Q -> (a / 800 * pageHeight <= b / 800 * pageHeight)%Q) as HmonoY.
  { intros a b Hab. apply Qmult_le_compat_r; [| done].
    apply Qmult_le_compat_r; [done | by compute]. }
  pose proof (HmonoX _ _ Hx0) as Hxa. pose proof (HmonoX _ _ Hx1) as Hxb.
  pose proof (HmonoY _ _ Hy0) as Hya. pose proof (HmonoY _ _ Hy1) as Hyb.
  assert (0 / 600 * pageWidth == 0)%Q as E1 by field.
  assert (600 / 600 * pageWidth == pageWidth)%Q as E2 by field.
  assert (0 / 800 * pageHeight == 0)%Q as E3 by field.
  assert (800 / 800 * pageHeight == pageHeight)%Q as E4 by field.
  rewrite E1 in Hxa. rewrite E2 in Hxb. rewrite E3 in Hya. rewrite E4 in Hyb.
  repeat apply conj.
  - destruct (PlacedField.type f), signatureImage; simpl; done.
  - destruct (PlacedField.type f), signatureImage; simpl; done.
  - destruct (PlacedField.type f), signatureImage; simpl; lra.
  - destruct (PlacedField.type f), signatureImage; simpl; lra.
  - intros Hy. destruct (PlacedField.type f), signatureImage; simpl;
      rewrite Hy; field.
  - intros Hy. destruct (PlacedField.type f), signatureImage; simpl;
      rewrite Hy; field.
  - intros -> Hy. pose proof (HmonoY _ _ Hy).
    destruct (PlacedField.type f), signatureImage; simpl; lra.
  - intros Hx. pose proof (HmonoX _ _ Hx).
    destruct (PlacedField.type f), (PlacedField.type g), signatureImage; simpl; lra.
Qed.

(** X10.  The image of a signature field is never wider than 120 nor
    higher than 40, and never larger than one and a half times the field.
    For a field as either drop path builds it (120 x 40) the image is
    exactly 120 x 40. *)
Theorem signature_image_size (signatureData : SignatureData.t)
    (image : PDFImage) (pageWidth pageHeight : Q) (f : PlacedField.t) :
  PlacedField.type f = signature ->
  exists x y w h,
    fieldOp signatureData (Some image) pageWidth pageHeight f = drawImage image x y w h
    /\ (w <= 120)%Q /\ (h <= 40)%Q
    /\ (w <= PlacedField.width f * (3 # 2))%Q
    /\ (h <= PlacedField.height f * (3 # 2))%Q
    /\ ((80 <= PlacedField.width f)%Q -> (w == 120)%Q)
    /\ ((PlacedField.height f * 3 <= 80)%Q -> (h == PlacedField.height f * (3 # 2))%Q)
    /\ (forall c, commitField c = Some f -> (w == 120)%Q /\ (h == 40)%Q).
Proof.
  intros Htype. rewrite fieldOp_position, Htype. eexists _, _, _, _.
  split; [reflexivity |].
  split; [apply Q.le_min_r |]. split; [apply Q.le_min_r |].
  split; [apply Q.le_min_l |]. split; [apply Q.le_min_l |].
  split; [intros Hw; apply Q.min_r; lra |].
  split; [intros Hh; apply Q.min_l; lra |].
  intros c Hc. destruct (commitField_shape c f Hc) as (_ & -> & -> & _).
  rewrite Htype. by split.
Qed.

(** ** Finalize, end to end *)

Lemma find_first {A} (p : A -> bool) (l : list A) (g : A) :
  List.find p l = Some g ->
  exists before after,
    l = before ++ g :: after /\ p g = true /\ Forall (fun a => p a = false) before.
Proof.
  induction l as [| a l IH]; simpl; [done |].
  destruct (p a) eqn:Hpa.
  - intros [= ->]. by exists [], l.
  - intros Hfind. destruct (IH Hfind) as (before & after & -> & Hg & Hbefore).
    exists (a :: before), after. split; [done |]. split; [done | by constructor].
Qed.

Lemma find_is_Some {A} (p : A -> bool) (l : list A) (f : A) :
  f ∈ l -> p f = true -> is_Some (List.find p l).
Proof.
  induction 1 as [f l | f a l _ IH]; simpl; intros Hp.
  - by rewrite Hp.
  - destruct (p a); [done | by apply IH].
Qed.

(** The value [findValue] reads: that of the first field of the kind. *)
Lemma findValue_first (fields : list PlacedField.t) (kind : FieldType) (f : PlacedField.t) :
  f ∈ fields -> PlacedField.type f = kind ->
  exists before first after,
    fields = before ++ first :: after
    /\ PlacedField.type first = kind
    /\ Forall (fun g => PlacedField.type g <> kind) before
    /\ findValue fields kind = default "" (PlacedField.value first).
Proof.
  intros Hin Hkind. unfold findValue.
  destruct (find_is_Some (fun g => bool_decide (PlacedField.type g = kind)) fields f)
    as [first Hfind]; [done | by apply bool_decide_eq_true |].
  rewrite Hfind. apply find_first in Hfind as (before & after & -> & Hfirst & Hbefore).
  exists before, first, after. apply bool_decide_eq_true in Hfirst.
  split; [done |]. split; [done |].
  split; [| by destruct (PlacedField.value first)].
  eapply Forall_impl; [exact Hbefore |]. intros g Hg. by apply bool_decide_eq_false in Hg.
Qed.

(** X13.  When finalizing a PDF succeeds, every name, email or date
    field within the page range is drawn at its own position, but with the
    value of the first field of its kind in the list, whatever value the
    field itself carries. *)
Theorem finalize_draws_first_value
    (load : File.t -> option (list PDFPage.t))
    (embedSignature : string -> option PDFImage) (localeNow : string)
    (encodes : string -> bool)
    (st : App.t) (file : File.t) (blob : Blob.t) (filename : string)
    (pages : list PDFPage.t) (f : PlacedField.t) :
  downloadBlob blob filename
    ∈ (handleDownloadDocument load embedSignature localeNow encodes st file).2 ->
  File.type file = "application/pdf" ->
  load file = Some pages ->
  let fields := getDocumentFields (App.documentsWithFields st) file in
  f ∈ fields ->
  PlacedField.type f <> signature ->
  (1 <= PlacedField.page f <= Z.of_nat (length pages))%Z ->
  exists before first after v page page' op,
    fields = before ++ first :: after
    /\ PlacedField.type first = PlacedField.type f
    /\ Forall (fun g => PlacedField.type g <> PlacedField.type f) before
    /\ PlacedField.value first = Some v
    /\ pages !! Z.to_nat (PlacedField.page f - 1) = Some page
    /\ Blob.pages blob !! Z.to_nat (PlacedField.page f - 1) = Some page'
    /\ op ∈ PDFPage.content page'
    /\ DrawOp_text op = Some v
    /\ (DrawOp_x op == PlacedField.x f / 600 * PDFPage.width page)%Q
    /\ (DrawOp_y op ==
          PDFPage.height page - PlacedField.y f / 800 * PDFPage.height page - 20)%Q.
Proof.
  intros Hdownload Htype Hload fields Hin Hkind Hrange.
  destruct (handleDownloadDocument_download _ _ _ _ _ _ _ _ Hdownload)
    as (Hne & Hfilled & Hgen & _).
  fold fields in Hne, Hfilled, Hgen.
  destruct (findValue_first fields (PlacedField.type f) f Hin eq_refl)
    as (before & first & after & Hsplit & Hfirst & Hbefore & Hvalue).
  assert (first ∈ fields) as Hfirst_in.
  { rewrite Hsplit. apply elem_of_app. right. apply list_elem_of_here. }
  assert (isEmptyField first = false) as Hnonempty.
  { destruct (isEmptyField first) eqn:He; [| done].
    assert (first ∈ List.filter isEmptyField fields) as Hbad.
    { apply list_elem_of_In, filter_In. split; [by apply list_elem_of_In | done]. }
    rewrite Hfilled in Hbad. by apply elem_of_nil in Hbad. }
  destruct (PlacedField.value first) as [v |] eqn:Hv;
    [| by unfold isEmptyField in Hnonempty; rewrite Hv in Hnonempty].
  simpl in Hvalue.
  unfold generateSignedPDF in Hgen.
  rewrite (bool_decide_true _ Htype) in Hgen.
  rewrite bool_decide_true in Hgen by (destruct fields; [done | simpl; lia]).
  cbv zeta in Hgen. cbn [andb] in Hgen.
  destruct (generatePDFWithPositionedFields _ _ _ _ _ _) as [signedPdfBlob |] eqn:Hpositioned;
    [| discriminate Hgen].
  injection Hgen as ->.
  apply generatePDFWithPositionedFields_Some in Hpositioned as (pages0 & Hload0 & -> & _).
  assert (pages0 = pages) as -> by congruence. cbn [Blob.pages].
  destruct (lookup_lt_is_Some_2 pages (Z.to_nat (PlacedField.page f - 1)))
    as [page Hpage]; [lia |].
  set (signatureData := {| SignatureData.name := findValue fields name;
                           SignatureData.email := findValue fields email;
                           SignatureData.date := findValue fields date;
                           SignatureData.signature := findValue fields signature |}).
  set (image := processSignature embedSignature signatureData).
  exists before, first, after, v, page.
  eexists _, (fieldOp signatureData image (PDFPage.width page) (PDFPage.height page) f).
  split; [done |]. split; [done |]. split; [done |]. split; [done |].
  split; [done |]. split; [by apply composite_lookup |].
  split.
  - cbn [withFields PDFPage.content]. apply elem_of_app. right.
    apply list_elem_of_fmap_2. apply list_elem_of_filter. split; [lia | done].
  - rewrite fieldOp_position.
    destruct (PlacedField.type f); [done | | |]; simpl;
      rewrite Hvalue; repeat split; reflexivity.
Qed.

(** When the generator throws: on the positioned path, when the document
    does not load or the font cannot encode the text of a field within the
    page range; on the fallback path, when drawing the summary page fails. *)
Lemma generateSignedPDF_throws load embedSignature localeNow encodes file signatureData
    fields :
  (exists message,
     generateSignedPDF load embedSignature localeNow encodes file signatureData fields
     = inr message)
  <-> (File.type file = "application/pdf" /\ fields <> []
       /\ (load file = None
           \/ exists pages f,
                load file = Some pages
                /\ f ∈ fields
                /\ (1 <= PlacedField.page f <= Z.of_nat (length pages))%Z
                /\ fieldAccepted encodes signatureData
                     (processSignature embedSignature signatureData) f = false))
      \/ ((File.type file <> "application/pdf" \/ fields = [])
          /\ signaturePage embedSignature localeNow encodes signatureData = None).
Proof.
  destruct (decide (File.type file = "application/pdf" /\ fields <> []))
    as [[Hpdf Hne] | Hfallback].
  - unfold generateSignedPDF. cbv zeta.
    rewrite (bool_decide_true _ Hpdf).
    rewrite bool_decide_true by (destruct fields; [done | simpl; lia]).
    cbn [andb]. unfold generatePDFWithPositionedFields.
    destruct (load file) as [pages |] eqn:Hload.
    + cbv zeta.
      destruct (applyFields_cases encodes signatureData
                  (processSignature embedSignature signatureData) pages fields)
        as [Hall | (f & Hf & Hrange & Hbad)].
      * rewrite (applyFields_Some _ _ _ _ _ Hall). split.
        -- intros [message H]. discriminate H.
        -- intros [(_ & _ & [H | (pages0 & f & [= <-] & Hf & Hrange & Hbad)])
                  | [[H | H] _]]; try done.
           by rewrite Hall in Hbad.
      * rewrite (applyFields_None _ _ _ _ _ f Hf Hrange Hbad). split; [| by eexists].
        intros _. left. split; [done |]. split; [done |]. right. by exists pages, f.
    + split; [| by eexists]. intros _. left. split; [done |]. split; [done |]. by left.
  - assert (fields = [] \/ File.type file <> "application/pdf") as Hor.
    { destruct (decide (fields = [])); [by left | right]. intros Hpdf. by apply Hfallback. }
    rewrite (generateSignedPDF_fallback _ _ _ _ _ _ _ Hor).
    destruct (signaturePage _ _ _ _) as [summary |]; split.
    + intros [message H]. discriminate H.
    + intros [(Hpdf & Hne & _) | [_ H]]; [| discriminate H].
      exfalso. by apply Hfallback.
    + intros _. right. split; [| done]. destruct Hor; [by right | by left].
    + by eexists.
Qed.

(** X14.  The finalize handler never touches the field store or the
    preview and has exactly one effect.  It is the add-fields alert exactly
    when [hasFields] is false, the fill-in alert exactly when some field of
    a non-empty list is empty, the generic error alert exactly when all
    fields are filled and the generator throws, and a download named
    [<first>_signed.pdf] exactly when all fields are filled and the
    generator returns.  With a non-empty list the generator throws exactly
    when the source is a PDF that does not load or has, within its page
    range, a field whose text the font cannot encode, or the source is not
    a PDF and drawing the summary page fails. *)
Theorem finalize_outcomes
    (load : File.t -> option (list PDFPage.t))
    (embedSignature : string -> option PDFImage) (localeNow : string)
    (encodes : string -> bool)
    (st : App.t) (file : File.t) :
  let fields := getDocumentFields (App.documentsWithFields st) file in
  let result := handleDownloadDocument load embedSignature localeNow encodes st file in
  let signatureData := signatureDataOf fields in
  let generated :=
    generateSignedPDF load embedSignature localeNow encodes file signatureData fields in
  App.documentsWithFields result.1 = App.documentsWithFields st
  /\ App.preview result.1 = App.preview st
  /\ (exists effect, result.2 = [effect])
  /\ (result.2 = [alert "Please add and fill some fields before downloading."]
      <-> hasFields (App.documentsWithFields st) file = false)
  /\ (result.2 = [alert "Please fill in all fields before downloading."]
      <-> fields <> [] /\ List.filter isEmptyField fields <> [])
  /\ (result.2 = [alert "Error generating signed document. Please try again."]
      <-> fields <> [] /\ List.filter isEmptyField fields = []
          /\ exists message, generated = inr message)
  /\ ((exists blob, result.2 = [downloadBlob blob (originalName file +:+ "_signed.pdf")])
      <-> fields <> [] /\ List.filter isEmptyField fields = []
          /\ exists blob, generated = inl blob)
  /\ (fields <> [] ->
      (exists message, generated = inr message)
      <-> (File.type file = "application/pdf"
           /\ (load file = None
               \/ exists pages f,
                    load file = Some pages
                    /\ f ∈ fields
                    /\ (1 <= PlacedField.page f <= Z.of_nat (length pages))%Z
                    /\ fieldAccepted encodes signatureData
                         (if decide (SignatureData.signature signatureData = "")
                          then None
                          else embedSignature (SignatureData.signature signatureData))
                         f = false))
          \/ (File.type file <> "application/pdf"
              /\ signaturePage embedSignature localeNow encodes signatureData = None)).
Proof.
  intros fields result signatureData generated.
  assert (fields <> [] ->
          (exists message, generated = inr message)
          <-> (File.type file = "application/pdf"
               /\ (load file = None
                   \/ exists pages f,
                        load file = Some pages
                        /\ f ∈ fields
                        /\ (1 <= PlacedField.page f <= Z.of_nat (length pages))%Z
                        /\ fieldAccepted encodes signatureData
                             (processSignature embedSignature signatureData) f = false))
              \/ (File.type file <> "application/pdf"
                  /\ signaturePage embedSignature localeNow encodes signatureData = None))
    as Hthrows.
  { intros Hne. unfold generated. rewrite generateSignedPDF_throws. split.
    - intros [(Hpdf & _ & H) | [[Hpdf | Hnil] H]]; [by left | by right | done].
    - intros [[Hpdf H] | [Hpdf H]]; [by left | right; split; [by left | done]]. }
  destruct (decide (fields = [])) as [Hnil | Hne].
  { subst result. unfold handleDownloadDocument, hasFields. fold fields.
    rewrite Hnil. simpl.
    repeat apply conj; try done; try (by eexists);
      try (intros H; discriminate H); try (intros [? H]; discriminate H);
      intros [H _]; done. }
  destruct (List.filter isEmptyField fields) as [| e0 erest] eqn:Hempty.
  - subst result.
    rewrite (handleDownloadDocument_generate _ _ _ _ _ _ Hne Hempty).
    fold fields. fold signatureData. fold generated. cbn [fst snd App.documentsWithFields App.preview].
    assert (hasFields (App.documentsWithFields st) file = true) as Hhas.
    { unfold hasFields. fold fields. apply bool_decide_eq_true.
      destruct fields; [done | simpl; lia]. }
    rewrite Hhas.
    destruct generated as [blob | message];
      repeat apply conj; try done; try (by eexists);
      try (intros H; discriminate H); try (intros [? H]; discriminate H);
      try (intros (_ & H & _); done);
      try (intros (_ & _ & [? H]); discriminate H);
      try (intros [_ H]; done);
      intros _; by eauto.
  - subst result. unfold handleDownloadDocument, hasFields. fold fields.
    rewrite decide_False by (by destruct fields). cbv zeta. rewrite Hempty.
    rewrite (bool_decide_true (0 < length (e0 :: erest))%nat) by (simpl; lia).
    rewrite (bool_decide_true (0 < length fields)%nat)
      by (destruct fields; [done | simpl; lia]).
    simpl.
    repeat apply conj; try done; try (by eexists);
      try (intros H; discriminate H); try (intros [? H]; discriminate H);
      intros (_ & H & _); done.
Qed.

(** X15.  A field counts as empty at finalize time exactly when it has no
    value or its value consists of white space only (the empty string
    included). *)
Theorem isEmptyField_whitespace (field : PlacedField.t) :
  isEmptyField field = true
  <-> PlacedField.value field = None
      \/ exists v,
           PlacedField.value field = Some v
           /\ Forall (fun c => isWhiteSpace c = true) (list_ascii_of_string v).
Proof.
  rewrite isEmptyField_spec. split.
  - intros [Hnone | (v & Hv & Htrim)]; [by left |].
    right. exists v. split; [done | by apply trim_empty].
  - intros [Hnone | (v & Hv & Hws)]; [by left |].
    right. exists v. split; [done | by apply trim_empty].
Qed.

(** ** The two versions of the generator *)

Lemma generateSignedPDF_v1_spec load embedSignature localeNow encodes originalFile
    signatureData :
  generateSignedPDF_v1 load embedSignature localeNow encodes originalFile signatureData
  = match signaturePage embedSignature localeNow encodes signatureData with
    | Some summary =>
        inl {| Blob.pages :=
                 match decide (File.type originalFile = "application/pdf"),
                       load originalFile with
                 | left _, Some originalPages => summary :: originalPages
                 | _, _ => [summary]
                 end;
               Blob.type := "application/pdf" |}
    | None => inr "Failed to generate signed PDF"
    end.
Proof.
  unfold generateSignedPDF_v1, signaturePage. cbv zeta.
  do 5 (match goal with
        | |- context [draw encodes ?page ?op] =>
            destruct (draw encodes page op) as [? |]; csimpl; [| done]
        end).
  match goal with
  | |- context [if ?c then Some ?page else ?other] =>
      destruct (if c then Some page else other) as [signed |]; csimpl; [| done]
  end.
  destruct (draw encodes signed _) as [summary |]; csimpl; [| done].
  destruct (decide _); [destruct (load originalFile) |]; done.
Qed.

(** X16.  With no positioned field, or on a source that is not a PDF, the
    generator does what its first version (without field positions) did:
    the same document, or the same error.  Both return a document when the
    font encodes the lines of the summary page. *)
Theorem first_generator_agrees
    (load : File.t -> option (list PDFPage.t))
    (embedSignature : string -> option PDFImage) (localeNow : string)
    (encodes : string -> bool)
    (originalFile : File.t) (signatureData : SignatureData.t)
    (fieldPositions : list PlacedField.t) :
  fieldPositions = [] \/ File.type originalFile <> "application/pdf" ->
  generateSignedPDF load embedSignature localeNow encodes originalFile signatureData
    fieldPositions
  = generateSignedPDF_v1 load embedSignature localeNow encodes originalFile signatureData
  /\ (Forall (fun text => encodes text = true) (summaryTexts localeNow signatureData) ->
      exists blob,
        generateSignedPDF_v1 load embedSignature localeNow encodes originalFile
          signatureData = inl blob)
  /\ ((exists text, text ∈ ["Document Signature"; "Signer Information:";
                             "Name: " +:+ SignatureData.name signatureData;
                             "Email: " +:+ SignatureData.email signatureData;
                             "Date: " +:+ SignatureData.date signatureData;
                             "Document signed on: " +:+ localeNow]
                     /\ encodes text = false) ->
      generateSignedPDF_v1 load embedSignature localeNow encodes originalFile
        signatureData = inr "Failed to generate signed PDF").
Proof.
  intros Hfallback.
  rewrite (generateSignedPDF_fallback _ _ _ _ _ _ _ Hfallback), generateSignedPDF_v1_spec.
  split; [done |]. split.
  - intros Hall.
    destruct (signaturePage_Some embedSignature localeNow encodes signatureData Hall)
      as [summary ->].
    eauto.
  - intros (text & Hin & Hbad).
    destruct (signaturePage _ _ _ _) as [summary |] eqn:Hpage; [| done].
    exfalso. apply signaturePage_texts in Hpage.
    rewrite Forall_forall in Hpage. by rewrite (Hpage text Hin) in Hbad.
Qed.

(** ** Removing an uploaded file *)

Lemma filter_index_delete {A} (l : list A) (k index : nat) :
  filter_index (fun i => negb (Nat.eqb i (k + index))) k l = delete index l.
Proof.
  revert k index. induction l as [| a l IH]; intros k index; simpl.
  - by destruct index.
  - destruct index as [| index].
    + rewrite Nat.add_0_r, Nat.eqb_refl. simpl.
      clear IH. generalize (S k) (Nat.lt_succ_diag_r k). intros j Hj.
      revert j Hj. induction l as [| b l IH]; intros j Hj; simpl; [done |].
      destruct (Nat.eqb_spec j k) as [-> | _]; [lia |]. simpl.
      f_equal. apply IH. lia.
    + destruct (Nat.eqb_spec k (k + S index)) as [Heq | _]; [lia |]. simpl.
      f_equal. replace (k + S index)%nat with (S k + index)%nat by lia. apply IH.
Qed.

(** X17.  [removeFile] throws exactly when the index is out of range.
    Otherwise the file list loses the entry at that index and nothing else,
    and the field list of the removed file is gone, also for every other
    upload with the same key (such as a second upload of the same file,
    which stays in the list); documents with another key keep theirs. *)
Theorem removeFile_spec (uploadedFiles : list File.t)
    (docs : gmap string (list PlacedField.t)) (index : nat) :
  (removeFile uploadedFiles docs index = None <-> (length uploadedFiles <= index)%nat)
  /\ forall file,
       uploadedFiles !! index = Some file ->
       exists newFiles docs',
         removeFile uploadedFiles docs index = Some (newFiles, docs')
         /\ newFiles = delete index uploadedFiles
         /\ S (length newFiles) = length uploadedFiles
         /\ (forall other,
               getDocumentKey other = getDocumentKey file ->
               getDocumentFields docs' other = [] /\ hasFields docs' other = false)
         /\ (forall other,
               getDocumentKey other <> getDocumentKey file ->
               getDocumentFields docs' other = getDocumentFields docs other).
Proof.
  unfold removeFile. split.
  - destruct (uploadedFiles !! index) as [file |] eqn:Hi.
    + apply lookup_lt_Some in Hi. split; [intros [=] | intros ?; exfalso; lia].
    + apply lookup_ge_None in Hi. done.
  - intros file H. rewrite H. eexists _, _. split; [reflexivity |].
    pose proof (filter_index_delete uploadedFiles 0 index) as Hdel. simpl in Hdel.
    split; [exact Hdel |].
    split.
    { rewrite Hdel, length_delete by done.
      apply lookup_lt_Some in H. lia. }
    split.
    + intros other Hkey.
      assert (getDocumentFields (removeDocumentFields file docs) other = []) as Hnone.
      { apply getDocumentFields_absent. unfold removeDocumentFields.
        rewrite Hkey. apply lookup_delete_eq. }
      unfold hasFields. by rewrite Hnone.
    + intros other Hkey. unfold getDocumentFields, removeDocumentFields.
      by rewrite lookup_delete_ne.
Qed.

(** ** Compositing one more field *)

Lemma withFields_snoc signatureData signatureImage page fields f :
  withFields signatureData signatureImage page (fields ++ [f])
  = addInstruction (withFields signatureData signatureImage page fields)
      (fieldOp signatureData signatureImage
         (PDFPage.width (withFields signatureData signatureImage page fields))
         (PDFPage.height (withFields signatureData signatureImage page fields)) f).
Proof. unfold withFields, addInstruction. simpl. by rewrite map_app, app_assoc. Qed.

Lemma composite_snoc signatureData signatureImage pages fields f :
  composite signatureData signatureImage pages (fields ++ [f])
  = if bool_decide (1 <= PlacedField.page f <= Z.of_nat (length pages))%Z
    then alter (fun page =>
                  addInstruction page
                    (fieldOp signatureData signatureImage
                       (PDFPage.width page) (PDFPage.height page) f))
           (Z.to_nat (PlacedField.page f - 1))
           (composite signatureData signatureImage pages fields)
    else composite signatureData signatureImage pages fields.
Proof.
  apply list_eq. intros i.
  destruct (pages !! i) as [page |] eqn:Hi.
  - pose proof (lookup_lt_Some _ _ _ Hi) as Hlt.
    rewrite (composite_lookup _ _ _ _ _ _ Hi), filter_app.
    rewrite filter_cons, filter_nil.
    case_bool_decide as Hrange.
    + destruct (decide (i = Z.to_nat (PlacedField.page f - 1))) as [-> | Hne].
      * rewrite list_lookup_alter_eq, (composite_lookup _ _ _ _ _ _ Hi).
        rewrite decide_True by lia. csimpl. by rewrite withFields_snoc.
      * rewrite list_lookup_alter_ne by done.
        rewrite (composite_lookup _ _ _ _ _ _ Hi).
        rewrite decide_False by lia. by rewrite app_nil_r.
    + rewrite (composite_lookup _ _ _ _ _ _ Hi).
      rewrite decide_False by lia. by rewrite app_nil_r.
  - apply lookup_ge_None in Hi.
    rewrite (proj2 (lookup_ge_None _ _)) by (by rewrite composite_length).
    symmetry. apply lookup_ge_None.
    case_bool_decide; rewrite ?length_alter, composite_length; done.
Qed.

Lemma instructionCount_alter (g : PDFPage.t -> PDFPage.t) (pages : list PDFPage.t) (i : nat) :
  (i < length pages)%nat ->
  (forall page, length (PDFPage.content (g page)) = S (length (PDFPage.content page))) ->
  instructionCount (alter g i pages) = S (instructionCount pages).
Proof.
  intros Hi Hg. revert i Hi. unfold instructionCount.
  induction pages as [| page pages IH]; intros i Hi; simpl in Hi; [lia |].
  destruct i as [| i]; csimpl.
  - rewrite Hg. lia.
  - rewrite IH by lia. lia.
Qed.

Lemma composite_nil signatureData signatureImage pages :
  composite signatureData signatureImage pages [] = pages.
Proof.
  apply list_eq. intros i. destruct (pages !! i) as [page |] eqn:Hi.
  - rewrite (composite_lookup _ _ _ _ _ _ Hi), filter_nil. by rewrite withFields_nil.
  - apply lookup_ge_None. rewrite composite_length. by apply lookup_ge_None.
Qed.

Lemma composite_count signatureData signatureImage pages fields :
  instructionCount (composite signatureData signatureImage pages fields)
  = (instructionCount pages
     + length (filter (fun f => (1 <= PlacedField.page f <= Z.of_nat (length pages))%Z)
                 fields))%nat.
Proof.
  induction fields as [| f fields IH] using rev_ind.
  - rewrite composite_nil, filter_nil. simpl. lia.
  - rewrite composite_snoc, filter_app, length_app, filter_cons, filter_nil.
    case_bool_decide as Hrange.
    + rewrite decide_True by done.
      rewrite instructionCount_alter;
        [| rewrite composite_length; lia
         | intros page; cbn [addInstruction PDFPage.content];
           rewrite length_app; simpl; lia].
      rewrite IH. simpl. lia.
    + rewrite decide_False by done. rewrite IH. simpl. lia.
Qed.

(** X11.  Compositing a list extended by one field: when compositing the
    list throws, so does compositing the longer one; otherwise the outcome
    is that of the list with, when the page number of the new field is in
    range, its one instruction added at the end of its page, or an error if
    the font cannot encode its text, and the unchanged document when the
    page number is out of range. *)
Theorem compositor_incremental
    (load : File.t -> option (list PDFPage.t))
    (embedSignature : string -> option PDFImage)
    (encodes : string -> bool)
    (originalFile : File.t) (signatureData : SignatureData.t)
    (fieldPositions : list PlacedField.t) (f : PlacedField.t)
    (pages : list PDFPage.t) :
  load originalFile = Some pages ->
  let signatureImage :=
    if decide (SignatureData.signature signatureData = "") then None
    else embedSignature (SignatureData.signature signatureData) in
  generatePDFWithPositionedFields load embedSignature encodes originalFile signatureData
    (fieldPositions ++ [f])
  = match generatePDFWithPositionedFields load embedSignature encodes originalFile
            signatureData fieldPositions with
    | Some blob =>
        if bool_decide (1 <= PlacedField.page f <= Z.of_nat (length pages))%Z
        then
          if fieldAccepted encodes signatureData signatureImage f
          then Some {| Blob.pages :=
                         alter (fun page =>
                                  addInstruction page
                                    (fieldOp signatureData signatureImage
                                       (PDFPage.width page) (PDFPage.height page) f))
                           (Z.to_nat (PlacedField.page f - 1)) (Blob.pages blob);
                       Blob.type := "application/pdf" |}
          else None
        else Some blob
    | None => None
    end.
Proof.
  intros Hload image.
  change image with (processSignature embedSignature signatureData) in *.
  clear image. set (image := processSignature embedSignature signatureData).
  unfold generatePDFWithPositionedFields. rewrite Hload. cbv zeta. fold image.
  destruct (applyFields_cases encodes signatureData image pages fieldPositions)
    as [Hall | (g & Hg & Hrange & Hbad)].
  - rewrite (applyFields_Some _ _ _ _ _ Hall). cbn [Blob.pages].
    case_bool_decide as Hrange.
    + destruct (fieldAccepted encodes signatureData image f) eqn:Hf.
      * rewrite applyFields_Some.
        2:{ intros g Hg Hr. apply elem_of_app in Hg as [Hg | Hg]; [by apply Hall |].
            by apply list_elem_of_singleton in Hg as ->. }
        by rewrite composite_snoc, bool_decide_true by done.
      * rewrite (applyFields_None _ _ _ _ _ f); [done | | done | done].
        apply elem_of_app. right. apply list_elem_of_here.
    + rewrite applyFields_Some.
      2:{ intros g Hg Hr. apply elem_of_app in Hg as [Hg | Hg]; [by apply Hall |].
          by apply list_elem_of_singleton in Hg as ->. }
      by rewrite composite_snoc, bool_decide_false by done.
  - rewrite (applyFields_None _ _ _ _ _ g Hg Hrange Hbad).
    rewrite (applyFields_None _ _ _ _ _ g); [done | | done | done].
    apply elem_of_app. by left.
Qed.

(** X12.  Every document the compositor returns holds exactly one more
    instruction per field whose page number is in range and none for the
    others: nothing is drawn twice and nothing already on a page is lost
    from the count.  It returns one when the file loads and the font
    encodes the text of every in-range field. *)
Theorem one_instruction_per_field
    (load : File.t -> option (list PDFPage.t))
    (embedSignature : string -> option PDFImage)
    (encodes : string -> bool)
    (originalFile : File.t) (signatureData : SignatureData.t)
    (fieldPositions : list PlacedField.t) (pages : list PDFPage.t) :
  load originalFile = Some pages ->
  let inRange f := (1 <= PlacedField.page f <= Z.of_nat (length pages))%Z in
  let signatureImage :=
    if decide (SignatureData.signature signatureData = "") then None
    else embedSignature (SignatureData.signature signatureData) in
  ((forall f, f ∈ fieldPositions -> inRange f ->
              fieldAccepted encodes signatureData signatureImage f = true) ->
   exists blob,
     generatePDFWithPositionedFields load embedSignature encodes originalFile
       signatureData fieldPositions = Some blob)
  /\ forall blob,
       generatePDFWithPositionedFields load embedSignature encodes originalFile
         signatureData fieldPositions = Some blob ->
       instructionCount (Blob.pages blob)
       = (instructionCount pages + length (filter inRange fieldPositions))%nat
       /\ (instructionCount (Blob.pages blob)
           <= instructionCount pages + length fieldPositions)%nat.
Proof.
  intros Hload inRange image. split.
  - intros Hall. eexists.
    by apply (generatePDFWithPositionedFields_accepted _ _ _ _ _ _ pages).
  - intros blob Hrun.
    apply generatePDFWithPositionedFields_Some in Hrun as (pages0 & Hload0 & -> & _).
    assert (pages0 = pages) as -> by congruence. cbn [Blob.pages].
    rewrite composite_count. split; [done |].
    pose proof (length_filter inRange fieldPositions). unfold inRange in *. lia.
Qed.

(** ** Instances of the further properties *)

Lemma getDocumentKey_identity_witness :
  getDocumentKey contract_retyped = getDocumentKey contract_pdf
  /\ getDocumentKey notes_txt <> getDocumentKey contract_pdf.
Proof.
  split.
  - apply (getDocumentKey_identity contract_retyped contract_pdf). by repeat split.
  - intros Hkey.
    apply (getDocumentKey_identity notes_txt contract_pdf) in Hkey as (Hname & _).
    discriminate Hname.
Defined.

Lemma store_frame_witness :
  let docs := updateDocumentFields notes_txt [blank_email] ∅ in
  getDocumentFields (updateDocumentFields contract_pdf [filled_name] docs) notes_txt
  = [blank_email]
  /\ getDocumentFields (removeDocumentFields contract_pdf docs) notes_txt = [blank_email].
Proof.
  intros docs.
  destruct (store_frame docs contract_pdf notes_txt [filled_name])
    as (Hupdate & Hremove & _).
  - intros Hkey. vm_compute in Hkey. discriminate Hkey.
  - split; [rewrite Hupdate | rewrite Hremove]; reflexivity.
Defined.

Lemma handleFieldRemoved_spec_witness :
  let pst := Preview_init [filled_name; blank_email; second_name] in
  length (Preview.placedFields
            (handleFieldRemoved pst "placed-email-1730000003000").1) = 2%nat
  /\ Preview.placedFields (handleFieldRemoved pst "placed-date-1").1
     = [filled_name; blank_email; second_name].
Proof.
  intros pst.
  destruct (handleFieldRemoved_spec pst "placed-email-1730000003000")
    as (_ & _ & _ & _ & _ & _ & _ & Hone).
  destruct (handleFieldRemoved_spec pst "placed-date-1")
    as (_ & _ & _ & _ & _ & _ & Hnoop & _).
  split.
  - assert (NoDup (map PlacedField.id (Preview.placedFields pst))) as Hnd.
    { vm_compute. repeat constructor; intros Hin;
        repeat (apply elem_of_cons in Hin as [Hin | Hin]; [discriminate Hin |]);
        by apply elem_of_nil in Hin. }
    assert (exists f, f ∈ Preview.placedFields pst
                      /\ PlacedField.id f = "placed-email-1730000003000") as Hex.
    { exists blank_email. split; [| reflexivity].
      apply list_elem_of_further, list_elem_of_here. }
    pose proof (Hone Hnd Hex) as Hlen. apply Nat.succ_inj. exact Hlen.
  - apply Hnoop. repeat constructor; intros Hid; discriminate Hid.
Defined.

Lemma handleDragEnd_spec_witness :
  let pst := Preview_init [filled_name] in
  let outside :=
    {| DragEndEvent.active_id := "field-name";
       DragEndEvent.active_data :=
         Some {| DragData.type := "field"; DragData.fieldType := name |};
       DragEndEvent.over := Some "toolbox";
       DragEndEvent.delta := Some (10%Q, 20%Q) |} in
  handleDragEnd pst 1730000000000 true outside = (pst, None).
Proof.
  intros pst outside.
  destruct (handleDragEnd_spec pst 1730000000000 true outside)
    as (Hactive & Hpage & _ & Hout).
  destruct Hout as [Hfields Hnone]; [intros H; discriminate H |].
  reflexivity.
Defined.

Lemma native_drop_matches_indicator_witness :
  exists f box,
    handleDrop 1 1730000000000 drop_signature = Some f
    /\ dragIndicator (handleDragOver drop_signature) true = Some box
    /\ Box.left box = PlacedField.x f /\ Box.top box = PlacedField.y f
    /\ Box.width box = 100%Q /\ PlacedField.width f = 120%Q.
Proof.
  eexists _, _. split; [reflexivity |].
  destruct (native_drop_matches_indicator [] 1 1730000000000 drop_signature _ eq_refl)
    as (_ & box & Hbox & Hleft & Htop & _ & Hsignature).
  destruct (Hsignature eq_refl) as (Hw & _ & Hfw & _).
  injection Hbox as <-.
  split; [reflexivity |]. split; [exact Hleft |]. split; [exact Htop |].
  split; [exact Hw | exact Hfw].
Defined.

Lemma transform_bounds_witness :
  let op := fieldOp ada None 612 792 filled_name in
  (0 <= DrawOp_x op <= 612)%Q /\ (- (20) <= DrawOp_y op <= 792 - 20)%Q.
Proof.
  intros op.
  destruct (transform_bounds ada None 612 792 filled_name filled_name)
    as (Hx & Hy & _).
  - by compute.
  - by compute.
  - split; by compute.
  - split; by compute.
  - split; [exact Hx | exact Hy].
Defined.

Lemma signature_image_size_witness :
  exists x y w h,
    fieldOp ada (Some (Png "data:image/png;base64,AAAA")) 612 792 placed_signature
    = drawImage (Png "data:image/png;base64,AAAA") x y w h
    /\ (w <= 120)%Q /\ (h <= 40)%Q.
Proof.
  destruct (signature_image_size ada (Png "data:image/png;base64,AAAA") 612 792
              placed_signature eq_refl)
    as (x & y & w & h & Hop & Hw & Hh & _).
  by exists x, y, w, h.
Defined.

Lemma compositor_incremental_witness :
  generatePDFWithPositionedFields sample_load sample_embed sample_encodes contract_pdf
    ada ([filled_name] ++ [date_on_page5])
  = generatePDFWithPositionedFields sample_load sample_embed sample_encodes contract_pdf
      ada [filled_name]
  /\ generatePDFWithPositionedFields sample_load sample_embed sample_encodes contract_pdf
       (signatureDataOf [control_name]) ([filled_name] ++ [control_name])
     = None.
Proof.
  split.
  - rewrite (compositor_incremental sample_load sample_embed sample_encodes contract_pdf
               ada [filled_name] date_on_page5 [letter_page; letter_page; letter_page]
               eq_refl).
    reflexivity.
  - rewrite (compositor_incremental sample_load sample_embed sample_encodes contract_pdf
               (signatureDataOf [control_name]) [filled_name] control_name
               [letter_page; letter_page; letter_page] eq_refl).
    reflexivity.
Defined.

Lemma one_instruction_per_field_witness :
  exists blob,
    generatePDFWithPositionedFields sample_load sample_embed sample_encodes contract_pdf
      ada [filled_name; date_on_page5; second_name] = Some blob
    /\ instructionCount (Blob.pages blob) = 2%nat.
Proof.
  destruct (one_instruction_per_field sample_load sample_embed sample_encodes contract_pdf
              ada [filled_name; date_on_page5; second_name]
              [letter_page; letter_page; letter_page] eq_refl)
    as [Hruns Hcount].
  destruct Hruns as [blob Hblob].
  { intros f Hf _.
    repeat (apply elem_of_cons in Hf as [-> | Hf]; [reflexivity |]).
    by apply elem_of_nil in Hf. }
  exists blob. split; [exact Hblob |].
  destruct (Hcount blob Hblob) as [-> _]. reflexivity.
Defined.

Lemma finalize_draws_first_value_witness :
  let st := app_with contract_pdf [filled_name; second_name] in
  let fields := [filled_name; second_name] in
  let signatureData :=
    {| SignatureData.name := "Ada Lovelace"; SignatureData.email := "";
       SignatureData.date := ""; SignatureData.signature := "" |} in
  let blob :=
    {| Blob.pages :=
         composite signatureData None [letter_page; letter_page; letter_page] fields;
       Blob.type := "application/pdf" |} in
  exists page' op,
    Blob.pages blob !! 0%nat = Some page'
    /\ op ∈ PDFPage.content page'
    /\ DrawOp_text op = Some "Ada Lovelace"
    /\ (DrawOp_x op == 306)%Q.
Proof.
  intros st fields signatureData blob.
  destruct (finalize_draws_first_value sample_load sample_embed sample_locale
              sample_encodes st contract_pdf blob "contract_signed.pdf"
              [letter_page; letter_page; letter_page] second_name)
    as (before & first & after & v & page & page' & op & Hsplit & Hkind & Hbefore
        & Hv & Hpage & Hpage' & Hin & Htext & Hx & Hy).
  - apply list_elem_of_here.
  - reflexivity.
  - reflexivity.
  - apply list_elem_of_further, list_elem_of_here.
  - intros Hkind. discriminate Hkind.
  - simpl. lia.
  - exists page', op. split; [exact Hpage' |]. split; [exact Hin |].
    injection Hpage as <-.
    destruct before as [| b before].
    + injection Hsplit as <- _. injection Hv as <-.
      split; [exact Htext |]. rewrite Hx. reflexivity.
    + exfalso. apply Forall_cons in Hbefore as [Hb _].
      injection Hsplit as <- _. by apply Hb.
Defined.

Lemma finalize_outcomes_witness :
  (handleDownloadDocument failing_load sample_embed sample_locale sample_encodes
     (app_with broken_pdf [filled_name]) broken_pdf).2
  = [alert "Error generating signed document. Please try again."]
  /\ (handleDownloadDocument sample_load sample_embed sample_locale sample_encodes
        (app_with notes_txt [control_name]) notes_txt).2
     = [alert "Error generating signed document. Please try again."].
Proof.
  split.
  - destruct (finalize_outcomes failing_load sample_embed sample_locale sample_encodes
                (app_with broken_pdf [filled_name]) broken_pdf)
      as (_ & _ & _ & _ & _ & Herror & _).
    apply Herror. split; [intros H; discriminate H |]. split; [reflexivity |].
    eexists. reflexivity.
  - destruct (finalize_outcomes sample_load sample_embed sample_locale sample_encodes
                (app_with notes_txt [control_name]) notes_txt)
      as (_ & _ & _ & _ & _ & Herror & _).
    apply Herror. split; [intros H; discriminate H |]. split; [reflexivity |].
    eexists. reflexivity.
Defined.

Lemma isEmptyField_whitespace_witness :
  isEmptyField blank_email = true /\ isEmptyField filled_name <> true.
Proof.
  split.
  - apply isEmptyField_whitespace. right. exists "   ". split; [reflexivity |].
    repeat constructor.
  - intros Hempty.
    apply isEmptyField_whitespace in Hempty as [Hnone | (v & Hv & Hws)];
      [discriminate Hnone |].
    injection Hv as <-. apply Forall_cons in Hws as [Hc _]. discriminate Hc.
Defined.

Lemma first_generator_agrees_witness :
  generateSignedPDF sample_load sample_embed sample_locale sample_encodes notes_txt ada
    [filled_name]
  = generateSignedPDF_v1 sample_load sample_embed sample_locale sample_encodes notes_txt
      ada
  /\ exists blob,
       generateSignedPDF_v1 sample_load sample_embed sample_locale sample_encodes
         notes_txt ada = inl blob.
Proof.
  destruct (first_generator_agrees sample_load sample_embed sample_locale sample_encodes
              notes_txt ada [filled_name]) as (Hsame & Hruns & _).
  - right. intros Htype. discriminate Htype.
  - split; [exact Hsame |]. apply Hruns. repeat constructor.
Defined.

Lemma removeFile_spec_witness :
  let docs := updateDocumentFields contract_pdf [filled_name] ∅ in
  exists docs',
    removeFile uploads docs 0 = Some ([notes_txt; contract_pdf], docs')
    /\ hasFields docs contract_pdf = true
    /\ hasFields docs' contract_pdf = false
    /\ removeFile uploads docs 3 = None.
Proof.
  intros docs.
  destruct (removeFile_spec uploads docs 0) as [_ Hremove].
  destruct (Hremove contract_pdf eq_refl)
    as (newFiles & docs' & Hresult & Hfiles & _ & Hgone & _).
  destruct (removeFile_spec uploads docs 3) as [Hthrows _].
  exists docs'. split; [by rewrite Hresult, Hfiles |].
  split; [reflexivity |]. split; [by apply Hgone |].
  apply Hthrows. simpl. lia.
Defined.
